(** * musicbot: a shallow embedding of [bot.py] and [music_service.py]

    The bot keeps four pieces of shared state (three dictionaries and the
    download queue) next to a counting semaphore, and runs one
    [process_download] coroutine per accepted download request.  Python
    strings are sequences of Unicode code points, dictionaries are finite
    maps, the file system is the set of paths that exist, and every call
    into a collaborator (chat transport, yt-dlp, mutagen, requests, the
    operating system asked to remove a file) is an input supplied by the
    environment, which may also be an exception. *)

From Stdlib Require Import ZArith NArith Ascii String DecimalString.
From stdpp Require Import gmap list.

Local Open Scope Z_scope.

(** ** Python values *)

(** A [str] is a sequence of code points; [len] counts code points. *)
Abbreviation pystr := (list N).

(** An ASCII literal of the source. *)
Definition lit (s : string) : pystr := N_of_ascii <$> list_ascii_of_string s.

(** [len(x)] as a Python integer. *)
Definition len {A} (l : list A) : Z := Z.of_nat (length l).

(** [str(n)] for an integer, as used by f-strings. *)
Definition py_str_int (n : Z) : pystr := lit (NilZero.string_of_int (Z.to_int n)).

(** Normalisation of one slice bound against a sequence of length [n]:
    a negative bound counts from the end, and both ends are clamped. *)
Definition slice_bound (n i : Z) : Z :=
  if i <? 0 then Z.max (i + n) 0 else Z.min i n.

(** [l[start:stop]] *)
Definition py_slice {A} (l : list A) (start stop : Z) : list A :=
  let lo := slice_bound (len l) start in
  let hi := slice_bound (len l) stop in
  take (Z.to_nat (hi - lo)) (drop (Z.to_nat lo) l).

(** [str.isspace] on one code point. *)
Definition py_isspace (c : N) : bool :=
  ((9 <=? c) && (c <=? 13) || (28 <=? c) && (c <=? 32)
   || (c =? 133) || (c =? 160) || (c =? 5760)
   || (8192 <=? c) && (c <=? 8202)
   || (c =? 8232) || (c =? 8233) || (c =? 8239) || (c =? 8287)
   || (c =? 12288))%N.

Fixpoint py_lstrip (s : pystr) : pystr :=
  match s with
  | c :: s' => if py_isspace c then py_lstrip s' else s
  | [] => []
  end.

(** [s.strip()] *)
Definition py_strip (s : pystr) : pystr :=
  reverse (py_lstrip (reverse (py_lstrip s))).

(** [s.split(sep)] for a one-character separator. *)
Fixpoint py_split (sep : N) (s : pystr) : list pystr :=
  match s with
  | [] => [[]]
  | c :: s' =>
      if (c =? sep)%N then [] :: py_split sep s'
      else match py_split sep s' with
           | field :: fields => (c :: field) :: fields
           | [] => [[c]]
           end
  end.

(** [s.replace(char, '')] for a one-character [char]. *)
Definition py_remove_char (char : N) (s : pystr) : pystr :=
  filter (λ c, c ≠ char) s.

(** Truthiness of a string: the empty string is false. *)
Definition truthy (s : pystr) : bool :=
  match s with [] => false | _ => true end.

(** [os.path.join(a, b)] (posixpath). *)
Definition os_path_join (a b : pystr) : pystr :=
  match b with
  | 47%N :: _ => b
  | _ => if negb (truthy a) || bool_decide (last a = Some 47%N)
         then a ++ b else a ++ [47%N] ++ b
  end.

(** Exceptions.  The code only ever tells apart [ID3NoHeaderError]; all
    the others are caught, or escape, as a group. *)
Inductive exn :=
  | ID3NoHeaderError
  | FileNotFoundError
  | IndexError
  | ValueError
  | OtherError (tag : nat).

(** The result of a call that may raise. *)
Inductive result (A : Type) :=
  | Return (a : A)
  | Raise (e : exn).
Arguments Return {A} a.
Arguments Raise {A} e.

Definition raised {A} (r : result A) : bool :=
  match r with Raise _ => true | Return _ => false end.

(** The file system: the set of paths at which a file exists. *)
Abbreviation filesystem := (gset (list N)).

(** [os.remove(path)].  Without a file at [path] it raises
    [FileNotFoundError].  With one, the operating system decides: a
    permission, a lock or a directory at that path makes the call raise
    and leaves the file, and the file is gone when the call returns.
    [outcome] is that decision. *)
Definition os_remove (outcome : result unit) (path : pystr) (fs : filesystem)
    : result filesystem :=
  if bool_decide (path ∈ fs) then
    match outcome with
    | Return _ => Return (fs ∖ {[path]})
    | Raise e => Raise e
    end
  else Raise FileNotFoundError.

(** [l.remove(x)]: the first occurrence goes; [ValueError] when there is
    none. *)
Fixpoint py_list_remove (x : pystr) (l : list pystr) : result (list pystr) :=
  match l with
  | [] => Raise ValueError
  | y :: l' =>
      if bool_decide (y = x) then Return l'
      else match py_list_remove x l' with
           | Return r => Return (y :: r)
           | Raise e => Raise e
           end
  end.

(** [l[i]] for an index that is not negative. *)
Definition py_index {A} (l : list A) (i : nat) : result A :=
  match l !! i with
  | Some x => Return x
  | None => Raise IndexError
  end.

(** ** The shared store *)

(** [music_service.Song] *)
Record Song := mkSong {
  video_id : pystr;
  title : pystr;
  artist : pystr;
  duration : pystr;
  thumbnail : option pystr;
}.

(** An HTTP response of [requests.get]. *)
Record response := mkResponse {
  status_code : Z;
  content : list N;
}.

(** ID3 frames added by [download_song]. *)
Inductive frame :=
  | TIT2 (text : pystr)
  | TPE1 (text : pystr)
  | APIC (data : list N).

(** Lines written with [print]. *)
Inductive log_line :=
  | LogDownloadingThumbnail (url_prefix : pystr)
  | LogThumbnailResponse (status size : Z)
  | LogThumbnailEmbedded
  | LogThumbnailError (e : exn)
  | LogNoThumbnail
  | LogTagsSaved (frames : list frame)
  | LogTagError (e : exn)
  | LogDownloadError (e : exn)
  | LogCleanupError (e : exn).

(** An [InlineKeyboardButton]. *)
Record button := mkButton {
  text : pystr;
  callback_data : pystr;
}.

(** Calls made to the chat transport. *)
Inductive output :=
  | CallbackAnswer (notice : pystr)
  | MessageAnswer (body : pystr)
  | MessageDelete
  | EditText (body : pystr) (keyboard : option (list (list button)))
  | AnswerAudioFile (audio : pystr) (thumb : option pystr) (title performer : pystr)
  | AnswerAudioCached (file_id : pystr).

(** The module-level state of [bot.py], the disk, and what has been
    printed and sent so far.  [download_semaphore] is the value of the
    [asyncio.Semaphore]: the number of free slots. *)
Record machine := mkMachine {
  audio_cache : gmap (list N) (list N);
  song_metadata : gmap (list N) (list N * list N * list N);
  search_cache : gmap Z (list N * list Song);
  download_queue : list pystr;
  download_semaphore : nat;
  files : filesystem;
  console : list log_line;
  outbox : list output;
}.

Definition set_audio_cache (f : gmap (list N) (list N) → gmap (list N) (list N)) (m : machine) : machine :=
  mkMachine (f (audio_cache m)) (song_metadata m) (search_cache m)
    (download_queue m) (download_semaphore m) (files m) (console m) (outbox m).
Definition set_song_metadata
    (f : gmap (list N) (list N * list N * list N) → gmap (list N) (list N * list N * list N))
    (m : machine) : machine :=
  mkMachine (audio_cache m) (f (song_metadata m)) (search_cache m)
    (download_queue m) (download_semaphore m) (files m) (console m) (outbox m).
Definition set_search_cache
    (f : gmap Z (list N * list Song) → gmap Z (list N * list Song)) (m : machine) : machine :=
  mkMachine (audio_cache m) (song_metadata m) (f (search_cache m))
    (download_queue m) (download_semaphore m) (files m) (console m) (outbox m).
Definition set_download_queue (f : list pystr → list pystr) (m : machine) : machine :=
  mkMachine (audio_cache m) (song_metadata m) (search_cache m)
    (f (download_queue m)) (download_semaphore m) (files m) (console m) (outbox m).
Definition set_download_semaphore (f : nat → nat) (m : machine) : machine :=
  mkMachine (audio_cache m) (song_metadata m) (search_cache m)
    (download_queue m) (f (download_semaphore m)) (files m) (console m) (outbox m).
Definition set_files (f : filesystem → filesystem) (m : machine) : machine :=
  mkMachine (audio_cache m) (song_metadata m) (search_cache m)
    (download_queue m) (download_semaphore m) (f (files m)) (console m) (outbox m).
Definition set_console (f : list log_line → list log_line) (m : machine) : machine :=
  mkMachine (audio_cache m) (song_metadata m) (search_cache m)
    (download_queue m) (download_semaphore m) (files m) (f (console m)) (outbox m).
Definition set_outbox (f : list output → list output) (m : machine) : machine :=
  mkMachine (audio_cache m) (song_metadata m) (search_cache m)
    (download_queue m) (download_semaphore m) (files m) (console m) (f (outbox m)).

(** ** A state-and-exception monad for straight-line Python *)

Definition M (A : Type) : Type := machine → result A * machine.

Definition ret {A} (a : A) : M A := λ m, (Return a, m).
Definition raise {A} (e : exn) : M A := λ m, (Raise e, m).
Definition bind {A B} (c : M A) (k : A → M B) : M B :=
  λ m, match c m with
       | (Return a, m') => k a m'
       | (Raise e, m') => (Raise e, m')
       end.

Notation "'let!' x := c 'in' k" := (bind c (λ x, k))
  (at level 10, x pattern, c at level 100, k at level 200).
Notation "c ;; k" := (bind c (λ _, k))
  (at level 100, right associativity).

(** [try: body except Exception as e: handler] *)
Definition try_except {A} (body : M A) (handler : exn → M A) : M A :=
  λ m, match body m with
       | (Raise e, m') => handler e m'
       | returned => returned
       end.

(** [try: body finally: cleanup] *)
Definition try_finally {A} (body : M A) (cleanup : M unit) : M A :=
  λ m, match body m with
       | (r, m') =>
           match cleanup m' with
           | (Return _, m'') => (r, m'')
           | (Raise e, m'') => (Raise e, m'')
           end
       end.

Definition gets {A} (f : machine → A) : M A := λ m, (Return (f m), m).
Definition modify (f : machine → machine) : M unit := λ m, (Return tt, f m).
Definition when (b : bool) (c : M unit) : M unit := if b then c else ret tt.

(** A call whose outcome the environment decides. *)
Definition call {A} (r : result A) : M A := λ m, (r, m).

Definition print (l : log_line) : M unit := modify (set_console (λ c, c ++ [l])).
Definition send (o : output) : M unit := modify (set_outbox (λ b, b ++ [o])).

(** [os.path.exists(path)] *)
Definition os_path_exists (path : pystr) : M bool :=
  gets (λ m, bool_decide (path ∈ files m)).

(** ** music_service.py *)

Module music_service.

(** [sanitize_filename]: the nine characters of [invalid_chars] (given
    here by code point) are removed one after the other, then the name is
    stripped. *)
Definition invalid_chars : list N := [60; 62; 58; 34; 47; 92; 124; 63; 42]%N.

Definition sanitize_filename (name : pystr) : pystr :=
  py_strip (foldl (λ name char, py_remove_char char name) name invalid_chars).

(** What the collaborators of one [download_song] call do: yt-dlp (how
    [ydl.download] ends, and the files on disk when it does), mutagen and
    requests. *)
Record download_env := mkDownloadEnv {
  ydl_download : result unit;
  ydl_files : filesystem;
  mp3_open : result unit;
  mp3_open_untagged : result unit;
  thumbnail_get : result response;
  audio_save : result unit;
}.

Section download.
(** [config.DOWNLOAD_PATH] *)
Variable DOWNLOAD_PATH : pystr.

Definition filename_of (video_id title artist : pystr) : pystr :=
  if truthy title && truthy artist then
    sanitize_filename (artist ++ lit " - " ++ title)
  else if truthy title then sanitize_filename title
  else video_id.

Definition final_path_of (video_id title artist : pystr) : pystr :=
  os_path_join DOWNLOAD_PATH (filename_of video_id title artist ++ lit ".mp3").

(** The body of the tagging [try] block. *)
Definition write_tags (env : download_env) (title artist thumbnail : pystr) : M unit :=
  try_except (call (mp3_open env))
    (λ e, match e with
          | ID3NoHeaderError => call (mp3_open_untagged env)
          | _ => raise e
          end) ;;
  let tags := (if truthy title then [TIT2 title] else [])
              ++ (if truthy artist then [TPE1 artist] else []) in
  let! tags :=
    (if truthy thumbnail then
       print (LogDownloadingThumbnail (py_slice thumbnail 0 80)) ;;
       try_except
         (let! response := call (thumbnail_get env) in
          print (LogThumbnailResponse (status_code response) (len (content response))) ;;
          if (status_code response =? 200) && (0 <? len (content response)) then
            print LogThumbnailEmbedded ;;
            ret (tags ++ [APIC (content response)])
          else ret tags)
         (λ e, print (LogThumbnailError e) ;; ret tags)
     else print LogNoThumbnail ;; ret tags) in
  call (audio_save env) ;;
  print (LogTagsSaved tags).

(** The nested function [_download], run in the thread pool. *)
Definition _download (env : download_env) (video_id title artist thumbnail : pystr)
    : M (option pystr) :=
  let final_path := final_path_of video_id title artist in
  try_except
    (modify (set_files (λ _, ydl_files env)) ;;
     call (ydl_download env) ;;
     let! present := os_path_exists final_path in
     when (present && (truthy title || truthy artist || truthy thumbnail))
       (try_except (write_tags env title artist thumbnail)
          (λ e, print (LogTagError e))) ;;
     ret (Some final_path))
    (λ e, print (LogDownloadError e) ;; ret None).

Definition download_song (env : download_env) (video_id title artist thumbnail : pystr)
    : M (option pystr) :=
  let! result := _download env video_id title artist thumbnail in
  match result with
  | Some path =>
      if truthy path then
        let! present := os_path_exists path in
        if present then ret (Some path) else ret None
      else ret None
  | None => ret None
  end.
End download.

(** [cleanup_file]; [removed] is what [os.remove] meets when the file is
    there. *)
Definition cleanup_file (removed : result unit) (filepath : pystr) : M unit :=
  try_except
    (let! present := os_path_exists filepath in
     when present
       (let! fs := gets files in
        let! fs' := call (os_remove removed filepath fs) in
        modify (set_files (λ _, fs'))))
    (λ e, print (LogCleanupError e)).

End music_service.

(** ** bot.py *)

Module bot.
Import music_service.

Definition SONGS_PER_PAGE : Z := 5.
Definition TOTAL_SEARCH_RESULTS : Z := 20.
Definition MAX_CONCURRENT_DOWNLOADS : Z := 3.

(** The text literals of the source, by code point. *)
Module txt.
(* "📋 В очереди: #" *)
Definition queued : pystr :=
  [128203; 32; 1042; 32; 1086; 1095; 1077; 1088; 1077; 1076; 1080; 58; 32; 35]%N.
(* "⏳ Скачиваю..." *)
Definition downloading : pystr :=
  [9203; 32; 1057; 1082; 1072; 1095; 1080; 1074; 1072; 1102; 46; 46; 46]%N.
(* "❌ Не удалось скачать. Попробуй другую песню." *)
Definition download_failed : pystr :=
  [10060; 32; 1053; 1077; 32; 1091; 1076; 1072; 1083; 1086; 1089; 1100; 32;
   1089; 1082; 1072; 1095; 1072; 1090; 1100; 46; 32; 1055; 1086; 1087; 1088;
   1086; 1073; 1091; 1081; 32; 1076; 1088; 1091; 1075; 1091; 1102; 32; 1087;
   1077; 1089; 1085; 1102; 46]%N.
(* "✅ Из кэша" *)
Definition from_cache : pystr :=
  [9989; 32; 1048; 1079; 32; 1082; 1101; 1096; 1072]%N.
(* "🔍 Ищу..." *)
Definition searching : pystr := [128269; 32; 1048; 1097; 1091; 46; 46; 46]%N.
(* "❌ Ничего не найдено. Попробуй другой запрос." *)
Definition nothing_found : pystr :=
  [10060; 32; 1053; 1080; 1095; 1077; 1075; 1086; 32; 1085; 1077; 32; 1085;
   1072; 1081; 1076; 1077; 1085; 1086; 46; 32; 1055; 1086; 1087; 1088; 1086;
   1073; 1091; 1081; 32; 1076; 1088; 1091; 1075; 1086; 1081; 32; 1079; 1072;
   1087; 1088; 1086; 1089; 46]%N.
(* "🎵 Результаты: <b>" *)
Definition results_open : pystr :=
  [127925; 32; 1056; 1077; 1079; 1091; 1083; 1100; 1090; 1072; 1090; 1099;
   58; 32; 60; 98; 62]%N.
(* "📝" *)
Definition memo : pystr := [128221]%N.
(* " • " *)
Definition bullet : pystr := [32; 8226; 32]%N.
(* "⬅️" *)
Definition back : pystr := [11013; 65039]%N.
(* "➡️" *)
Definition forward : pystr := [10145; 65039]%N.
(* "📝 Загружаю текст..." *)
Definition loading_lyrics : pystr :=
  [128221; 32; 1047; 1072; 1075; 1088; 1091; 1078; 1072; 1102; 32; 1090;
   1077; 1082; 1089; 1090; 46; 46; 46]%N.
(* "❌ Текст песни не найден" *)
Definition lyrics_not_found : pystr :=
  [10060; 32; 1058; 1077; 1082; 1089; 1090; 32; 1087; 1077; 1089; 1085; 1080;
   32; 1085; 1077; 32; 1085; 1072; 1081; 1076; 1077; 1085]%N.
Definition newline : pystr := [10]%N.
End txt.

(** *** [process_download]

    The coroutine is cut at its [await]s.  A job is at one of these
    stages; between two of them the code runs without interruption. *)
Inductive stage :=
  | Created
  | Notifying
  | Waiting
  | Downloading
  | Failing
  | Delivering (filepath : pystr) (thumb_path : option pystr)
  | Finished (r : result unit).

(** What the cover download inside [process_download] meets:
    [requests.get], [NamedTemporaryFile(suffix='.jpg', delete=False)]
    (the name it picks, before the suffix) and the write. *)
Record thumbnail_env := mkThumbnailEnv {
  thumb_get : result response;
  thumb_tempfile : result pystr;
  thumb_write : result unit;
}.

(** What the two [os.remove] calls of the [finally] block meet, the one
    inside [cleanup_file] and the one on the cover. *)
Record removal_env := mkRemovalEnv {
  audio_removed : result unit;
  thumb_removed : result unit;
}.

(** Lines 38-44: the id joins the queue and the position is announced. *)
Definition process_download_begin (video_id : pystr) : M unit :=
  modify (set_download_queue (λ q, q ++ [video_id])) ;;
  let! queue_position := gets (λ m, len (download_queue m)) in
  if MAX_CONCURRENT_DOWNLOADS <? queue_position then
    send (CallbackAnswer
            (txt.queued ++ py_str_int (queue_position - MAX_CONCURRENT_DOWNLOADS)))
  else send (CallbackAnswer txt.downloading).

(** Entering and leaving [async with download_semaphore]. *)
Definition acquire (m : machine) : option machine :=
  match download_semaphore m with
  | O => None
  | S n => Some (set_download_semaphore (λ _, n) m)
  end.

Definition release : M unit := modify (set_download_semaphore S).

(** Lines 61-71: the cover for Telegram; every exception is swallowed.
    [thumb_path] is assigned before the write, so it stays set when the
    write fails. *)
Definition fetch_thumb (tenv : thumbnail_env) (thumbnail : pystr) : M (option pystr) :=
  if truthy thumbnail then
    try_except
      (let! resp := call (thumb_get tenv) in
       if status_code resp =? 200 then
         let! stem := call (thumb_tempfile tenv) in
         let thumb_path := stem ++ lit ".jpg" in
         modify (set_files (λ fs, fs ∪ {[thumb_path]})) ;;
         try_except (call (thumb_write tenv)) (λ _, ret tt) ;;
         ret (Some thumb_path)
       else ret None)
      (λ _, ret None)
  else ret None.

Section pipeline.
Variable DOWNLOAD_PATH : pystr.

(** Lines 47-86: [download_song], awaited with the slot held, and what
    follows its return up to the next [await]. *)
Definition process_download_fetch (env : download_env) (tenv : thumbnail_env)
    (video_id title artist thumbnail : pystr) : M stage :=
  let! filepath := download_song DOWNLOAD_PATH env video_id title artist thumbnail in
  let! queued := gets (λ m, bool_decide (video_id ∈ download_queue m)) in
  when queued
    (let! q := gets download_queue in
     let! q' := call (py_list_remove video_id q) in
     modify (set_download_queue (λ _, q'))) ;;
  match filepath with
  | Some filepath =>
      if truthy filepath then
        let! thumb_path := fetch_thumb tenv thumbnail in
        match thumb_path with
        | Some thumb =>
            if truthy thumb then
              send (AnswerAudioFile filepath (Some thumb) title artist)
            else send (AnswerAudioFile filepath None title artist)
        | None => send (AnswerAudioFile filepath None title artist)
        end ;;
        ret (Delivering filepath thumb_path)
      else send (MessageAnswer txt.download_failed) ;; ret Failing
  | None => send (MessageAnswer txt.download_failed) ;; ret Failing
  end.

(** Lines 88-98: the upload is back; the [finally] block follows. *)
Definition process_download_deliver (sent : result (option pystr))
    (renv : removal_env) (video_id filepath : pystr) (thumb_path : option pystr)
    : M unit :=
  try_finally
    (let! sent_audio := call sent in
     match sent_audio with
     | Some file_id => modify (set_audio_cache (λ c, <[video_id := file_id]> c))
     | None => ret tt
     end)
    (cleanup_file (audio_removed renv) filepath ;;
     match thumb_path with
     | Some thumb =>
         when (truthy thumb)
           (try_except
              (let! fs := gets files in
               let! fs' := call (os_remove (thumb_removed renv) thumb fs) in
               modify (set_files (λ _, fs')))
              (λ _, ret tt))
     | None => ret tt
     end).

(** A scheduled [process_download] task: its arguments and where it
    stands. *)
Record job := mkJob {
  job_video_id : pystr;
  job_title : pystr;
  job_artist : pystr;
  job_thumbnail : pystr;
  job_stage : stage;
}.

Definition at_stage (st : stage) (j : job) : job :=
  mkJob (job_video_id j) (job_title j) (job_artist j) (job_thumbnail j) st.

(** What wakes a suspended task up. *)
Inductive wakeup :=
  | Scheduled
  | Answered (r : result unit)
  | Acquired
  | Downloaded (env : download_env) (tenv : thumbnail_env)
  | Uploaded (sent : result (option pystr)) (renv : removal_env).

(** Code running inside [async with]: leaving the block, by [return] or
    by an exception, gives the slot back. *)
Definition leave (c : M unit) (m : machine) : stage * machine :=
  let '(r, m') := try_finally c release m in (Finished r, m').

Definition inside (c : M stage) (m : machine) : stage * machine :=
  match c m with
  | (Return st, m') => (st, m')
  | (Raise e, m') => leave (raise e) m'
  end.

(** One uninterrupted run of the coroutine, from one [await] to the
    next.  [None]: the wake-up does not fit the stage, or the semaphore
    has no free slot. *)
Definition process_download_step (j : job) (w : wakeup) (m : machine)
    : option (stage * machine) :=
  match job_stage j, w with
  | Created, Scheduled =>
      match process_download_begin (job_video_id j) m with
      | (Return _, m') => Some (Notifying, m')
      | (Raise e, m') => Some (Finished (Raise e), m')
      end
  | Notifying, Answered (Return _) => Some (Waiting, m)
  | Notifying, Answered (Raise e) => Some (Finished (Raise e), m)
  | Waiting, Acquired =>
      match acquire m with
      | Some m' => Some (Downloading, m')
      | None => None
      end
  | Downloading, Downloaded env tenv =>
      Some (inside (process_download_fetch env tenv (job_video_id j)
                      (job_title j) (job_artist j) (job_thumbnail j)) m)
  | Failing, Answered r => Some (leave (call r) m)
  | Delivering filepath thumb_path, Uploaded sent renv =>
      Some (leave (process_download_deliver sent renv (job_video_id j) filepath thumb_path) m)
  | _, _ => None
  end.

(** One request on its own: every [await] of the coroutine is answered
    from [env] as soon as it is reached. *)
Record pipeline_env := mkPipelineEnv {
  position_notice : result unit;
  download : download_env;
  cover : thumbnail_env;
  failure_notice : result unit;
  upload : result (option pystr);
  removal : removal_env;
}.

Definition wakeup_for (env : pipeline_env) (st : stage) : option wakeup :=
  match st with
  | Created => Some Scheduled
  | Notifying => Some (Answered (position_notice env))
  | Waiting => Some Acquired
  | Downloading => Some (Downloaded (download env) (cover env))
  | Failing => Some (Answered (failure_notice env))
  | Delivering _ _ => Some (Uploaded (upload env) (removal env))
  | Finished _ => None
  end.

Fixpoint drive (fuel : nat) (env : pipeline_env) (j : job) (m : machine)
    : option (result unit * machine) :=
  match job_stage j with
  | Finished r => Some (r, m)
  | st =>
      match fuel with
      | O => None
      | S fuel' =>
          match wakeup_for env st with
          | Some w =>
              match process_download_step j w m with
              | Some (st', m') => drive fuel' env (at_stage st' j) m'
              | None => None
              end
          | None => None
          end
      end
  end.

(** [process_download], run to its end without other tasks in between.
    [None]: the request waits for a slot that nobody will free. *)
Definition process_download (env : pipeline_env)
    (video_id title artist thumbnail : pystr) (m : machine)
    : option (result unit * machine) :=
  drive 5 env (mkJob video_id title artist thumbnail Created) m.
End pipeline.

(** *** [build_results_keyboard] *)

Definition song_row (song : Song) : list button :=
  let button_text := artist song ++ txt.bullet ++ title song in
  let button_text :=
    if 55 <? len button_text then py_slice button_text 0 52 ++ lit "..."
    else button_text in
  [ mkButton button_text (lit "dl:" ++ video_id song);
    mkButton txt.memo (lit "lyrics:" ++ video_id song) ].

Definition remember (md : gmap (list N) (list N * list N * list N)) (song : Song)
    : gmap (list N) (list N * list N * list N) :=
  <[video_id song := (title song, artist song, default [] (thumbnail song))]> md.

Definition build_results_keyboard (songs : list Song) (page : Z) (user_id : Z)
    : M (list (list button)) :=
  let start_idx := page * SONGS_PER_PAGE in
  let end_idx := start_idx + SONGS_PER_PAGE in
  let page_songs := py_slice songs start_idx end_idx in
  modify (set_song_metadata (λ md, foldl remember md page_songs)) ;;
  let buttons := song_row <$> page_songs in
  let total_pages := (len songs + SONGS_PER_PAGE - 1) / SONGS_PER_PAGE in
  let pagination_buttons :=
    (if 0 <? page
     then [mkButton txt.back (lit "page:" ++ py_str_int (page - 1))] else [])
    ++ [mkButton (py_str_int (page + 1) ++ lit "/" ++ py_str_int total_pages)
          (lit "noop")]
    ++ (if page <? total_pages - 1
        then [mkButton txt.forward (lit "page:" ++ py_str_int (page + 1))] else []) in
  ret (match pagination_buttons with
       | [] => buttons
       | _ => buttons ++ [pagination_buttons]
       end).

(** *** The handlers *)

(** [song_metadata.get(video_id, ("", "", ""))] *)
Definition metadata_get (md : gmap (list N) (list N * list N * list N))
    (video_id : pystr) : pystr * pystr * pystr :=
  default ([], [], []) (md !! video_id).

Record search_env := mkSearchEnv {
  deleted : result unit;
  status_sent : result unit;
  found : result (list Song);
  edited : result unit;
}.

Definition search_handler (env : search_env) (user_id : Z) (message_text : pystr)
    : M unit :=
  let query := py_strip message_text in
  if negb (truthy query) then ret tt
  else
    try_except (send MessageDelete ;; call (deleted env)) (λ _, ret tt) ;;
    send (MessageAnswer txt.searching) ;;
    call (status_sent env) ;;
    let! songs := call (found env) in
    match songs with
    | [] => send (EditText txt.nothing_found None) ;; call (edited env)
    | _ =>
        modify (set_search_cache (λ c, <[user_id := (query, songs)]> c)) ;;
        let! keyboard := build_results_keyboard songs 0 user_id in
        send (EditText (txt.results_open ++ query ++ lit "</b>") (Some keyboard)) ;;
        call (edited env)
    end.

(** Lines 256-263 of [lyrics_handler]: the text of the message. *)
Definition lyrics_text (artist title lyrics : pystr) : pystr :=
  let header := txt.memo ++ lit " <b>" ++ artist ++ lit " - " ++ title
                ++ lit "</b>" ++ txt.newline ++ txt.newline in
  let max_lyrics_len := 4000 - len header in
  let lyrics :=
    if max_lyrics_len <? len lyrics
    then py_slice lyrics 0 max_lyrics_len ++ lit "..."
    else lyrics in
  header ++ lyrics.

Record lyrics_env := mkLyricsEnv {
  lyrics_acked : result unit;
  lyrics_found : option pystr;
  lyrics_sent : result unit;
}.

Definition lyrics_handler (env : lyrics_env) (data : pystr) : M unit :=
  let! video_id := call (py_index (py_split 58 data) 1) in
  send (CallbackAnswer txt.loading_lyrics) ;;
  call (lyrics_acked env) ;;
  let! (title, artist, _) := gets (λ m, metadata_get (song_metadata m) video_id) in
  match lyrics_found env with
  | Some (c :: lyrics') =>
      send (MessageAnswer (lyrics_text artist title (c :: lyrics'))) ;;
      call (lyrics_sent env)
  | _ =>
      send (MessageAnswer (txt.memo ++ lit " <b>" ++ artist ++ lit " - " ++ title
                           ++ lit "</b>" ++ txt.newline ++ txt.newline
                           ++ txt.lyrics_not_found)) ;;
      call (lyrics_sent env)
  end.

Record press_env := mkPressEnv {
  cached_sent : result unit;
  cached_acked : result unit;
}.

(** [download_handler]; the task handed to [asyncio.create_task], if
    any, is its result. *)
Definition download_handler (env : press_env) (data : pystr) : M (option job) :=
  let! video_id := call (py_index (py_split 58 data) 1) in
  let! cached := gets (λ m, audio_cache m !! video_id) in
  match cached with
  | Some file_id =>
      send (AnswerAudioCached file_id) ;;
      call (cached_sent env) ;;
      send (CallbackAnswer txt.from_cache) ;;
      call (cached_acked env) ;;
      ret None
  | None =>
      let! (title, artist, thumbnail) :=
        gets (λ m, metadata_get (song_metadata m) video_id) in
      ret (Some (mkJob video_id title artist thumbnail Created))
  end.

(** *** The event loop

    The events are the button presses and messages that reach the three
    handlers above, and the wake-ups of the [process_download] tasks.  The
    handlers of [/start], [/queue], the page buttons and the page
    indicator create no task and touch neither the queue nor the
    semaphore; they are not among the events. *)

(** The store with the tasks created so far. *)
Record world := mkWorld {
  store : machine;
  jobs : list job;
}.

Inductive event :=
  | DownloadPressed (env : press_env) (data : pystr)
  | LyricsPressed (env : lyrics_env) (data : pystr)
  | TextMessage (env : search_env) (user_id : Z) (message_text : pystr)
  | Wake (i : nat) (w : wakeup).

Section loop.
Variable DOWNLOAD_PATH : pystr.

(** An event the loop cannot serve now (the task is not there, waits
    for something else, or finds no free slot) leaves the world as it
    is. *)
Definition handle (w : world) (e : event) : world :=
  match e with
  | DownloadPressed env data =>
      match download_handler env data (store w) with
      | (Return (Some j), m') => mkWorld m' (jobs w ++ [j])
      | (_, m') => mkWorld m' (jobs w)
      end
  | LyricsPressed env data =>
      mkWorld (lyrics_handler env data (store w)).2 (jobs w)
  | TextMessage env user_id message_text =>
      mkWorld (search_handler env user_id message_text (store w)).2 (jobs w)
  | Wake i wk =>
      match jobs w !! i with
      | Some j =>
          match process_download_step DOWNLOAD_PATH j wk (store w) with
          | Some (st', m') => mkWorld m' (<[i := at_stage st' j]> (jobs w))
          | None => w
          end
      | None => w
      end
  end.

Definition run (w : world) (events : list event) : world :=
  foldl handle w events.
End loop.

(** The bot at start-up, over the files [fs]. *)
Definition initial (fs : filesystem) : world :=
  mkWorld (mkMachine ∅ ∅ ∅ [] (Z.to_nat MAX_CONCURRENT_DOWNLOADS) fs [] []) [].

(** A task holds a slot from the moment [acquire] lets it in until it
    leaves the [async with] block. *)
Definition holds_slot (st : stage) : bool :=
  match st with
  | Downloading | Failing | Delivering _ _ => true
  | _ => false
  end.

Definition holders (w : world) : nat :=
  length (filter (λ j, holds_slot (job_stage j) = true) (jobs w)).

End bot.

(** ** music_service.py: the catalogue *)

Module music_search.

(** One entry of what [ytmusic.search] returns: the keys the code reads,
    each of which may be missing.  An artist is given by the value of its
    [name] key and a thumbnail by that of its [url] key, if they have
    one. *)
Record search_item := mkItem {
  resultType : option pystr;
  artists : option (list (option pystr));
  item_duration : option pystr;
  thumbnails : option (list (option pystr));
  videoId : option pystr;
  item_title : option pystr;
}.

(** [sep.join(parts)] *)
Fixpoint py_join (sep : pystr) (parts : list pystr) : pystr :=
  match parts with
  | [] => []
  | [part] => part
  | part :: rest => part ++ sep ++ py_join sep rest
  end.

(** The body of the loop of [search_songs], after the [continue]. *)
Definition song_of_item (item : search_item) : Song :=
  let artists := default [] (artists item) in
  let artist_name :=
    match artists with
    | [] => lit "Unknown"
    | _ => py_join (lit ", ") (default [] <$> artists)
    end in
  let duration := default (lit "0:00") (item_duration item) in
  let thumbnails := default [] (thumbnails item) in
  let thumbnail :=
    match last thumbnails with
    | Some thumb => thumb
    | None => None
    end in
  mkSong (default [] (videoId item)) (default (lit "Unknown") (item_title item))
    artist_name duration thumbnail.

Fixpoint search_loop (results : list search_item) (songs : list Song) : list Song :=
  match results with
  | [] => songs
  | item :: results =>
      if bool_decide (resultType item ≠ Some (lit "song"))
      then search_loop results songs
      else search_loop results (songs ++ [song_of_item item])
  end.

(** [search_songs]; [ytmusic_search query limit] is what
    [ytmusic.search(query, filter="songs", limit=limit)] does. *)
Definition search_songs (ytmusic_search : pystr → Z → result (list search_item))
    (query : pystr) (limit : Z) : result (list Song) :=
  match ytmusic_search query limit with
  | Return results => Return (search_loop results [])
  | Raise e => Raise e
  end.

(** What [get_lyrics] meets: the [lyrics] key of the watch playlist, and
    what [ytmusic.get_lyrics] gives for it (nothing, or a dictionary of
    which the [lyrics] key is read). *)
Record lyrics_source := mkLyricsSource {
  watch_playlist_lyrics : result (option pystr);
  lyrics_data : result (option (option pystr));
}.

(** [get_lyrics]: its value, and the exceptions it printed. *)
Definition get_lyrics (src : lyrics_source) : option pystr * list exn :=
  match watch_playlist_lyrics src with
  | Raise e => (None, [e])
  | Return lyrics_browse_id =>
      match lyrics_browse_id with
      | Some (_ :: _) =>
          match lyrics_data src with
          | Raise e => (None, [e])
          | Return (Some data) => (data, [])
          | Return None => (None, [])
          end
      | _ => (None, [])
      end
  end.

End music_search.

(** ** bot.py: the other handlers *)

Module bot_pages.
Import bot.

(* "📊 <b>Статус очереди</b>" *)
Definition status_title : pystr :=
  [128202; 32; 60; 98; 62; 1057; 1090; 1072; 1090; 1091; 1089; 32; 1086; 1095;
   1077; 1088; 1077; 1076; 1080; 60; 47; 98; 62]%N.
(* "⬇️ Скачивается: " *)
Definition status_active : pystr :=
  [11015; 65039; 32; 1057; 1082; 1072; 1095; 1080; 1074; 1072; 1077; 1090;
   1089; 1103; 58; 32]%N.
(* "⏳ В ожидании: " *)
Definition status_waiting : pystr :=
  [9203; 32; 1042; 32; 1086; 1078; 1080; 1076; 1072; 1085; 1080; 1080; 58; 32]%N.
(* "⚠️ Поиск устарел, введи запрос заново" *)
Definition search_expired : pystr :=
  [9888; 65039; 32; 1055; 1086; 1080; 1089; 1082; 32; 1091; 1089; 1090; 1072;
   1088; 1077; 1083; 44; 32; 1074; 1074; 1077; 1076; 1080; 32; 1079; 1072;
   1087; 1088; 1086; 1089; 32; 1079; 1072; 1085; 1086; 1074; 1086]%N.

(** The f-string of [queue_handler]. *)
Definition status_text (active waiting : Z) : pystr :=
  status_title ++ txt.newline ++ txt.newline
  ++ status_active ++ py_str_int active ++ lit "/"
  ++ py_str_int MAX_CONCURRENT_DOWNLOADS ++ txt.newline
  ++ status_waiting ++ py_str_int waiting.

Definition queue_handler (sent : result unit) : M unit :=
  let! active := gets (λ m, Z.min (len (download_queue m)) MAX_CONCURRENT_DOWNLOADS) in
  let! waiting := gets (λ m, Z.max 0 (len (download_queue m) - MAX_CONCURRENT_DOWNLOADS)) in
  send (MessageAnswer (status_text active waiting)) ;;
  call sent.

Record page_env := mkPageEnv {
  stale_acked : result unit;
  markup_edited : result unit;
  page_acked : result unit;
}.

Section paging.
(** [int] of the builtins, on strings. *)
Variable py_int : pystr → result Z.

(** [pagination_handler]; the keyboard handed to [edit_reply_markup], if
    any, is its result. *)
Definition pagination_handler (env : page_env) (user_id : Z) (data : pystr)
    : M (option (list (list button))) :=
  let! field := call (py_index (py_split 58 data) 1) in
  let! page := call (py_int field) in
  let! cached := gets (λ m, search_cache m !! user_id) in
  match cached with
  | None =>
      send (CallbackAnswer search_expired) ;;
      call (stale_acked env) ;;
      ret None
  | Some (query, songs) =>
      let! keyboard := build_results_keyboard songs page user_id in
      call (markup_edited env) ;;
      call (page_acked env) ;;
      ret (Some keyboard)
  end.
End paging.

End bot_pages.

(** ** Vocabulary of the proofs *)

(** [c] never changes the component [f] of the store. *)
Definition keeps {B} (f : machine → B) {A} (c : M A) : Prop :=
  ∀ m, f (c m).2 = f m.

(** [c] never raises. *)
Definition total {A} (c : M A) : Prop := ∀ m, ∃ a, (c m).1 = Return a.

(** Everything in the store but what was printed. *)
Definition core (m : machine) :=
  (audio_cache m, song_metadata m, search_cache m,
   download_queue m, download_semaphore m, files m, outbox m).

(** The queue once [process_download] has taken its id out again. *)
Definition dequeued (vid : pystr) (q : list pystr) : list pystr :=
  match py_list_remove vid q with
  | Return q' => q'
  | Raise _ => q
  end.

(** Slots held by a task at stage [st]. *)
Definition slot (st : bot.stage) : nat := if bot.holds_slot st then 1 else 0.

(** The files named in a call to the transport. *)
Definition uploaded_files (o : output) : list pystr :=
  match o with
  | AnswerAudioFile audio thumb _ _ =>
      audio :: match thumb with Some p => [p] | None => [] end
  | _ => []
  end.

(** A button with this label is somewhere on the keyboard. *)
Definition has_button (label : pystr) (keyboard : list (list button)) : Prop :=
  ∃ row b, row ∈ keyboard ∧ b ∈ row ∧ text b = label.

(** A button with this callback data is somewhere on the keyboard. *)
Definition has_data (data : pystr) (keyboard : list (list button)) : Prop :=
  ∃ row b, row ∈ keyboard ∧ b ∈ row ∧ callback_data b = data.

(** The least number of pages of [d] items that hold [n] items. *)
Definition ceil_div (n d : Z) : Z :=
  if n mod d =? 0 then n / d else n / d + 1.

(** The directory part that [os.path.join] puts before a relative name. *)
Definition download_dir (DOWNLOAD_PATH : pystr) : pystr :=
  if negb (truthy DOWNLOAD_PATH) || bool_decide (last DOWNLOAD_PATH = Some 47%N)
  then DOWNLOAD_PATH else DOWNLOAD_PATH ++ [47%N].

(** The part of [s] before its first [sep]. *)
Fixpoint prefix_before (sep : N) (s : pystr) : pystr :=
  match s with
  | [] => []
  | c :: s' => if (c =? sep)%N then [] else c :: prefix_before sep s'
  end.

(** Stages at which the id of a task is expected in [download_queue]:
    from the append up to the return of [download_song]. *)
Definition in_queue (st : bot.stage) : bool :=
  match st with
  | bot.Notifying | bot.Waiting | bot.Downloading => true
  | _ => false
  end.

(** The ids of the tasks at such a stage. *)
Definition pending (js : list bot.job) : list pystr :=
  bot.job_video_id <$> filter (λ j, in_queue (bot.job_stage j) = true) js.


(** Sample inputs for the instances below. *)
Module sample.
Import music_service bot.

Definition DOWNLOAD_PATH : pystr := lit "downloads".

Definition song (n : Z) : Song :=
  mkSong (lit "vid" ++ py_str_int n) (lit "Title " ++ py_str_int n)
    (lit "Artist") (lit "3:30") None.

Definition songs (n : nat) : list Song := song <$> (Z.of_nat <$> seq 0 n).

Definition boot : machine := store (initial ∅).

(** A download that works: the mp3 is on disk when yt-dlp returns. *)
Definition download_ok (video_id : pystr) : download_env :=
  mkDownloadEnv (Return tt) {[ final_path_of DOWNLOAD_PATH video_id [] [] ]}
    (Return tt) (Return tt) (Return (mkResponse 200 [1; 2; 3]%N)) (Return tt).

Definition cover_ok : thumbnail_env :=
  mkThumbnailEnv (Return (mkResponse 200 [1; 2; 3]%N)) (Return (lit "/tmp/tmpab12"))
    (Return tt).

(** Both files of the [finally] block can be removed. *)
Definition removal_ok : removal_env := mkRemovalEnv (Return tt) (Return tt).

Definition pipeline_ok (video_id : pystr) : pipeline_env :=
  mkPipelineEnv (Return tt) (download_ok video_id) cover_ok (Return tt)
    (Return (Some (lit "file-id"))) removal_ok.

Definition press : press_env := mkPressEnv (Return tt) (Return tt).
End sample.

(** More sample inputs. *)
Module sample_more.
Import music_search bot bot_pages.

(** A reading of decimal numbers, for the places where [int] is called
    on what [str] printed. *)
Definition digits_value (s : pystr) : option Z :=
  foldl (λ acc c,
           match acc with
           | Some n => if ((48 <=? c) && (c <=? 57))%N
                       then Some (10 * n + (Z.of_N c - 48)) else None
           | None => None
           end) (Some 0) s.

Definition py_int (s : pystr) : result Z :=
  match s with
  | [] => Raise ValueError
  | 45%N :: digits =>
      match digits, digits_value digits with
      | _ :: _, Some n => Return (- n)
      | _, _ => Raise ValueError
      end
  | _ =>
      match digits_value s with
      | Some n => Return n
      | None => Raise ValueError
      end
  end.

Definition item (kind : string) (n : Z) : search_item :=
  mkItem (Some (lit kind)) (Some [Some (lit "Artist"); None; Some (lit "Guest")])
    (Some (lit "3:30")) (Some [Some (lit "small.jpg"); Some (lit "large.jpg")])
    (Some (lit "vid" ++ py_str_int n)) (Some (lit "Title " ++ py_str_int n)).

Definition ytmusic (results : list search_item) : pystr → Z → result (list search_item) :=
  λ _ _, Return results.

Definition page_ok : page_env := mkPageEnv (Return tt) (Return tt) (Return tt).

(** The store after user 42 has searched and got seven songs. *)
Definition searched : machine :=
  (search_handler
     (mkSearchEnv (Return tt) (Return tt) (Return (sample.songs 7)) (Return tt))
     42 (lit "query") sample.boot).2.
End sample_more.

(** * Properties *)

Import music_service bot.

(** ** Frame rules: what a computation leaves alone *)

Section frames.
Context {B : Type} (f : machine → B).

Lemma keeps_ret {A} (a : A) : keeps f (ret a).
Proof. done. Qed.

Lemma keeps_raise {A} (e : exn) : keeps f (@raise A e).
Proof. done. Qed.

Lemma keeps_call {A} (r : result A) : keeps f (call r).
Proof. done. Qed.

Lemma keeps_gets {A} (g : machine → A) : keeps f (gets g).
Proof. done. Qed.

Lemma keeps_modify (g : machine → machine) :
  (∀ m, f (g m) = f m) → keeps f (modify g).
Proof. intros Hg m. apply Hg. Qed.

Lemma keeps_bind {A C} (c : M A) (k : A → M C) :
  keeps f c → (∀ a, keeps f (k a)) → keeps f (bind c k).
Proof.
  intros Hc Hk m. unfold bind. specialize (Hc m).
  destruct (c m) as [[a|e] m1]; simpl in *; [|done].
  by rewrite Hk.
Qed.

Lemma keeps_try_except {A} (c : M A) (h : exn → M A) :
  keeps f c → (∀ e, keeps f (h e)) → keeps f (try_except c h).
Proof.
  intros Hc Hh m. unfold try_except. specialize (Hc m).
  destruct (c m) as [[a|e] m1]; simpl in *; [done|].
  by rewrite Hh.
Qed.

Lemma keeps_try_finally {A} (c : M A) (k : M unit) :
  keeps f c → keeps f k → keeps f (try_finally c k).
Proof.
  intros Hc Hk m. unfold try_finally. specialize (Hc m).
  destruct (c m) as [r m1]; simpl in *. specialize (Hk m1).
  destruct (k m1) as [[[]|e] m2]; simpl in *; congruence.
Qed.

Lemma keeps_when (b : bool) (c : M unit) : keeps f c → keeps f (when b c).
Proof. destruct b; [done|]. intros _. apply keeps_ret. Qed.
End frames.

Ltac keeps_step :=
  first
    [ apply keeps_ret | apply keeps_raise | apply keeps_call | apply keeps_gets
    | apply keeps_bind; [|intros ?]
    | apply keeps_try_except; [|intros ?]
    | apply keeps_try_finally
    | apply keeps_when
    | apply keeps_modify; intros ?; reflexivity
    | match goal with
      | |- keeps _ (match ?x with _ => _ end) => destruct x
      | |- keeps _ (if ?b then _ else _) => destruct b
      | |- keeps _ (let '(_, _) := ?x in _) => destruct x
      end ].
Ltac keeps_auto := unfold print, send; repeat keeps_step.

(** ** Computations that never raise *)

Lemma total_ret {A} (a : A) : total (ret a).
Proof. intros m. by exists a. Qed.

Lemma total_gets {A} (g : machine → A) : total (gets g).
Proof. intros m. by eexists. Qed.

Lemma total_modify (g : machine → machine) : total (modify g).
Proof. intros m. by eexists. Qed.

Lemma total_bind {A C} (c : M A) (k : A → M C) :
  total c → (∀ a, total (k a)) → total (bind c k).
Proof.
  intros Hc Hk m. unfold bind. destruct (Hc m) as [a Ha].
  destruct (c m) as [[a'|e] m1]; simpl in *; [|done]. apply Hk.
Qed.

Lemma total_try_except {A} (c : M A) (h : exn → M A) :
  (∀ e, total (h e)) → total (try_except c h).
Proof.
  intros Hh m. unfold try_except. destruct (c m) as [[a|e] m1]; [by eexists|].
  apply Hh.
Qed.

Lemma total_when (b : bool) (c : M unit) : total c → total (when b c).
Proof. destruct b; [done|]. intros _. apply total_ret. Qed.

Ltac total_step :=
  first
    [ apply total_ret | apply total_gets | apply total_modify
    | apply total_try_except; intros ?
    | apply total_bind; [|intros ?]
    | apply total_when
    | match goal with
      | |- total (match ?x with _ => _ end) => destruct x
      | |- total (if ?b then _ else _) => destruct b
      end ].
Ltac total_auto := unfold print, send; repeat total_step.

Lemma core_eq m m' :
  core m' = core m →
  audio_cache m' = audio_cache m ∧ song_metadata m' = song_metadata m
  ∧ search_cache m' = search_cache m ∧ download_queue m' = download_queue m
  ∧ download_semaphore m' = download_semaphore m ∧ files m' = files m
  ∧ outbox m' = outbox m.
Proof. unfold core. intros [= -> -> -> -> -> -> ->]. done. Qed.

Lemma download_song_total dl env vid t a th :
  total (download_song dl env vid t a th).
Proof. unfold download_song, _download, os_path_exists. total_auto. Qed.

Lemma write_tags_keeps_core env t a th :
  keeps core (write_tags env t a th).
Proof. unfold write_tags. keeps_auto. Qed.

Lemma truthy_app_r (a b : pystr) : truthy b = true → truthy (a ++ b) = true.
Proof. destruct a, b; done. Qed.

Lemma os_path_join_truthy a b : truthy b = true → truthy (os_path_join a b) = true.
Proof.
  intros Hb. unfold os_path_join.
  destruct b as [|c b]; [done|].
  assert (∀ x : pystr, truthy (if negb (truthy a) || bool_decide (last a = Some 47%N)
     then a ++ c :: b else a ++ [47%N] ++ c :: b) = true) as H.
  { intros _. destruct (_ || _); by apply truthy_app_r. }
  specialize (H []).
  repeat (match goal with |- context [match ?x with _ => _ end] => destruct x end; try done).
Qed.

Lemma final_path_truthy dl vid t a : truthy (final_path_of dl vid t a) = true.
Proof. apply os_path_join_truthy, truthy_app_r. done. Qed.

(** A name that is not empty keeps its last character when it is joined
    to a directory. *)
Lemma os_path_join_last (a b : pystr) :
  truthy b = true → last (os_path_join a b) = last b.
Proof.
  intros Hb.
  assert (∀ x : pystr, last (x ++ b) = last b) as Happ.
  { intros x. rewrite last_app. destruct (last b) eqn:Hl; [done|].
    apply last_None in Hl. by subst b. }
  unfold os_path_join. destruct b as [|c rest]; [done|].
  destruct (decide (c = 47%N)) as [->|Hne]; [done|].
  assert (∀ X Y : pystr, match c with 47%N => X | _ => Y end = Y) as ->.
  { intros X Y. destruct c as [|c]; [done|].
    repeat (destruct c as [c|c|]; try done). }
  destruct (_ || _); [apply Happ|]. rewrite app_assoc. apply Happ.
Qed.

(** The expected path ends in the [3] of [.mp3]. *)
Lemma final_path_last dl vid t a : last (final_path_of dl vid t a) = Some 51%N.
Proof.
  unfold final_path_of. rewrite os_path_join_last by by apply truthy_app_r.
  by rewrite last_app.
Qed.

(** The tagging step returns, and touches nothing but the console. *)
Lemma tagging_step env t a th (b : bool) m :
  ∃ m', when b (try_except (write_tags env t a th) (λ e, print (LogTagError e))) m
        = (Return tt, m') ∧ core m' = core m.
Proof.
  assert (total (when b (try_except (write_tags env t a th) (λ e, print (LogTagError e))))) as Ht
    by total_auto.
  assert (keeps core (when b (try_except (write_tags env t a th) (λ e, print (LogTagError e))))) as Hk.
  { apply keeps_when, keeps_try_except; [apply write_tags_keeps_core|intros; keeps_auto]. }
  specialize (Ht m). specialize (Hk m).
  destruct (when _ _ m) as [r m']. destruct Ht as [[] Hr]. simpl in *. subst r.
  by exists m'.
Qed.

Lemma download_song_spec dl env vid t a th m :
  let final_path := final_path_of dl vid t a in
  let r := if raised (ydl_download env) then None
           else if bool_decide (final_path ∈ ydl_files env) then Some final_path
           else None in
  ∃ m', download_song dl env vid t a th m = (Return r, m')
        ∧ files m' = ydl_files env
        ∧ download_queue m' = download_queue m
        ∧ download_semaphore m' = download_semaphore m
        ∧ audio_cache m' = audio_cache m
        ∧ outbox m' = outbox m.
Proof.
  intros final_path r. subst r.
  unfold download_song, _download. fold final_path.
  destruct env as [ydl F o1 o2 tg sv]. simpl.
  destruct ydl as [[]|e]; simpl.
  - unfold bind at 1. unfold try_except at 1. unfold bind at 1. simpl.
    unfold bind at 1. simpl. unfold bind at 1. simpl.
    set (b := bool_decide (final_path ∈ F) && _).
    destruct (tagging_step {| ydl_download := Return (); ydl_files := F; mp3_open := o1;
       mp3_open_untagged := o2; thumbnail_get := tg; audio_save := sv |} t a th b
       (set_files (λ _, F) m)) as (m' & Heq & Hc).
    unfold bind at 1. rewrite Heq. simpl.
    apply core_eq in Hc as (?&?&?&?&?&Hf&?). simpl in *.
    rewrite (final_path_truthy dl vid t a : truthy final_path = true).
    unfold bind, os_path_exists, gets; simpl. rewrite Hf.
    exists m'. by destruct (bool_decide (final_path ∈ F)).
  - eexists. split; [reflexivity|]. done.
Qed.

(** [cleanup_file] never raises.  The file is gone afterwards unless
    [os.remove] raised on it; then it stays and the error is printed. *)
Lemma cleanup_file_spec removed filepath m :
  ∃ m', cleanup_file removed filepath m = (Return tt, m')
        ∧ files m' = (if raised removed then files m else files m ∖ {[filepath]})
        ∧ download_queue m' = download_queue m
        ∧ download_semaphore m' = download_semaphore m
        ∧ audio_cache m' = audio_cache m
        ∧ outbox m' = outbox m
        ∧ (filepath ∉ files m → m' = m)
        ∧ (∀ e, removed = Raise e → filepath ∈ files m →
             console m' = console m ++ [LogCleanupError e]).
Proof.
  unfold cleanup_file, try_except, bind, os_path_exists, gets, when, call, os_remove.
  simpl. destruct (decide (filepath ∈ files m)) as [Hin|Hnin].
  - rewrite !bool_decide_eq_true_2 by done. destruct removed as [[]|e]; simpl.
    + eexists. split; [reflexivity|]. simpl. repeat split; done.
    + eexists. split; [reflexivity|]. simpl. repeat split; try done.
      by intros e' [= <-] _.
  - rewrite bool_decide_eq_false_2 by done. simpl.
    exists m. repeat split; try done.
    destruct (raised removed); [done|].
    symmetry. by apply difference_disjoint_L, disjoint_singleton_r.
Qed.

Lemma process_download_begin_spec vid m :
  let k := len (download_queue m) + 1 in
  process_download_begin vid m =
    (Return tt,
     set_outbox (λ b, b ++ [CallbackAnswer
        (if MAX_CONCURRENT_DOWNLOADS <? k
         then txt.queued ++ py_str_int (k - MAX_CONCURRENT_DOWNLOADS)
         else txt.downloading)])
       (set_download_queue (λ q, q ++ [vid]) m)).
Proof.
  intros k. unfold process_download_begin, bind, modify, gets, send. simpl.
  assert (len (download_queue m ++ [vid]) = k) as ->.
  { unfold k, len. rewrite length_app. simpl. lia. }
  by destruct (MAX_CONCURRENT_DOWNLOADS <? k).
Qed.

Lemma fetch_thumb_spec tenv th m :
  ∃ thp m', fetch_thumb tenv th m = (Return thp, m')
    ∧ files m' = files m ∪ (match thp with Some p => {[p]} | None => ∅ end)
    ∧ match thp with
      | Some p => truthy p = true ∧ last p = Some 103%N
      | None => True
      end
    ∧ download_queue m' = download_queue m
    ∧ download_semaphore m' = download_semaphore m
    ∧ audio_cache m' = audio_cache m
    ∧ outbox m' = outbox m.
Proof.
  unfold fetch_thumb. destruct (truthy th).
  2:{ exists None, m. repeat split; try done. by rewrite union_empty_r_L. }
  unfold try_except, bind, call. destruct (thumb_get tenv) as [resp|e]; simpl.
  2:{ exists None, m. repeat split; try done. by rewrite union_empty_r_L. }
  destruct (status_code resp =? 200).
  2:{ exists None, m. repeat split; try done. by rewrite union_empty_r_L. }
  destruct (thumb_tempfile tenv) as [stem|e]; simpl.
  2:{ exists None, m. repeat split; try done. by rewrite union_empty_r_L. }
  destruct (thumb_write tenv) as [[]|e]; simpl;
    (eexists (Some _), _; split; [reflexivity|]; simpl; repeat split; try done;
     [by apply truthy_app_r | by rewrite last_app]).
Qed.

Lemma py_list_remove_elem x (l : list pystr) :
  x ∈ l → ∃ l', py_list_remove x l = Return l' ∧ length l = S (length l').
Proof.
  induction l as [|y l IH]; [by intros ?%elem_of_nil|].
  intros Hin. simpl. case_bool_decide as Hy; [by eexists|].
  apply elem_of_cons in Hin as [->|Hin]; [done|].
  destruct (IH Hin) as (l' & -> & Hlen). eexists. split; [done|]. simpl. lia.
Qed.

Lemma dequeue_step vid m :
  when (bool_decide (vid ∈ download_queue m))
    (let! q := gets download_queue in
     let! q' := call (py_list_remove vid q) in
     modify (set_download_queue (λ _, q'))) m
  = (Return tt, set_download_queue (dequeued vid) m).
Proof.
  unfold dequeued. case_bool_decide as Hin; simpl.
  - destruct (py_list_remove_elem _ _ Hin) as (q' & Hq & _).
    unfold bind, gets, call, modify. simpl. rewrite Hq. unfold set_download_queue. by rewrite Hq.
  - unfold ret. f_equal. destruct m as [c md sc q s fs co ob].
    unfold set_download_queue; simpl. f_equal.
    simpl in Hin. clear -Hin.
    assert (∃ e, py_list_remove vid q = Raise e) as [e ->]; [|done].
    induction q as [|y l IH]; [by eexists|]. simpl.
    apply not_elem_of_cons in Hin as [Hne Hin].
    rewrite bool_decide_eq_false_2 by done.
    destruct (IH Hin) as [e ->]. by eexists.
Qed.

Lemma process_download_fetch_spec dl env tenv vid t a th m :
  let final_path := final_path_of dl vid t a in
  let d := if raised (ydl_download env) then None
           else if bool_decide (final_path ∈ ydl_files env) then Some final_path
           else None in
  ∃ st m', process_download_fetch dl env tenv vid t a th m = (Return st, m')
    ∧ download_queue m' = dequeued vid (download_queue m)
    ∧ download_semaphore m' = download_semaphore m
    ∧ audio_cache m' = audio_cache m
    ∧ match d with
      | None =>
          st = Failing ∧ files m' = ydl_files env
          ∧ outbox m' = outbox m ++ [MessageAnswer txt.download_failed]
      | Some filepath =>
          ∃ thumb_path,
            st = Delivering filepath thumb_path
            ∧ files m' = ydl_files env
                         ∪ (match thumb_path with Some p => {[p]} | None => ∅ end)
            ∧ match thumb_path with
              | Some p => truthy p = true ∧ last p = Some 103%N
              | None => True
              end
            ∧ outbox m' = outbox m ++ [AnswerAudioFile filepath thumb_path t a]
      end.
Proof.
  intros final_path d. unfold process_download_fetch.
  destruct (download_song_spec dl env vid t a th m) as (m1 & Hd & Hf1 & Hq1 & Hs1 & Hc1 & Ho1).
  fold final_path in Hd. fold d in Hd.
  unfold bind at 1. rewrite Hd. unfold bind at 1, gets at 1. simpl.
  unfold bind at 1. rewrite dequeue_step.
  set (m2 := set_download_queue (dequeued vid) m1).
  destruct d as [filepath|] eqn:Hdv.
  - assert (truthy filepath = true) as ->.
    { unfold d in Hdv. destruct (raised _); [done|]. case_bool_decide; [|done].
      injection Hdv as <-. apply final_path_truthy. }
    destruct (fetch_thumb_spec tenv th m2) as (thp & m3 & Ht & Hf3 & Htr & Hq3 & Hs3 & Hc3 & Ho3).
    unfold bind at 1. rewrite Ht.
    eexists (Delivering filepath thp), _. split.
    { unfold bind, send, modify, ret.
      destruct thp as [p|]; [rewrite (proj1 Htr)|]; reflexivity. }
    simpl. rewrite Hq3, Hs3, Hc3, Hf3, Ho3. simpl.
    rewrite Hq1, Hs1, Hc1, Hf1, Ho1. repeat split; try done.
    exists thp. done.
  - eexists Failing, _. split; [reflexivity|]. simpl.
    rewrite Hq1, Hs1, Hc1, Hf1, Ho1. done.
Qed.

(** The [finally] block never raises, whatever [os.remove] does: the run
    ends as the upload did.  Off the disk go the audio file and the cover,
    each unless [os.remove] raised on it, and nothing else. *)
Lemma process_download_deliver_spec sent renv vid filepath thumb_path m :
  ∃ m', process_download_deliver sent renv vid filepath thumb_path m
        = (match sent with Return _ => Return tt | Raise e => Raise e end, m')
    ∧ files m' = files m ∖ (if raised (audio_removed renv) then ∅ else {[filepath]})
                 ∖ (match thumb_path with
                    | Some p => if truthy p && negb (raised (thumb_removed renv))
                                then {[p]} else ∅
                    | None => ∅
                    end)
    ∧ download_queue m' = download_queue m
    ∧ download_semaphore m' = download_semaphore m
    ∧ outbox m' = outbox m
    ∧ audio_cache m' = match sent with
                       | Return (Some file_id) => <[vid := file_id]> (audio_cache m)
                       | _ => audio_cache m
                       end
    ∧ (∀ e, audio_removed renv = Raise e → filepath ∈ files m →
         console m' = console m ++ [LogCleanupError e]).
Proof.
  unfold process_download_deliver, try_finally.
  set (body := bind (call sent) _).
  assert (∃ m1, body m = (match sent with Return _ => Return tt | Raise e => Raise e end, m1)
            ∧ files m1 = files m ∧ download_queue m1 = download_queue m
            ∧ download_semaphore m1 = download_semaphore m ∧ outbox m1 = outbox m
            ∧ audio_cache m1 = match sent with
                       | Return (Some file_id) => <[vid := file_id]> (audio_cache m)
                       | _ => audio_cache m
                       end
            ∧ console m1 = console m) as (m1 & -> & Hf1 & Hq1 & Hs1 & Ho1 & Hc1 & Hl1).
  { unfold body, bind, call. destruct sent as [[fid|]|e]; eexists; (split; [reflexivity|done]). }
  destruct (cleanup_file_spec (audio_removed renv) filepath m1)
    as (m2 & Hcl & Hf2 & Hq2 & Hs2 & Hc2 & Ho2 & _ & Hl2).
  rewrite Hf1, Hl1 in Hl2.
  assert (files m2 = files m ∖ (if raised (audio_removed renv) then ∅ else {[filepath]}))
    as Hf2'.
  { rewrite Hf2, Hf1. destruct (raised _); [by rewrite difference_empty_L|done]. }
  clear Hf2. unfold bind at 1. rewrite Hcl.
  destruct thumb_path as [p|]; [destruct (truthy p)|]; simpl.
  - unfold try_except, bind, gets, call, os_remove, modify. simpl.
    case_bool_decide as Hp; [destruct (thumb_removed renv) as [[]|e]|]; simpl.
    + eexists. split; [reflexivity|]. simpl. rewrite Hf2', Hq2, Hs2, Hc2, Ho2.
      done.
    + exists m2. split; [done|]. rewrite Hf2', Hq2, Hs2, Hc2, Ho2. repeat split; try done.
      by rewrite difference_empty_L.
    + exists m2. split; [done|]. rewrite Hf2', Hq2, Hs2, Hc2, Ho2. repeat split; try done.
      rewrite Hf2' in Hp. destruct (raised (thumb_removed renv)); simpl.
      * by rewrite difference_empty_L.
      * symmetry. by apply difference_disjoint_L, disjoint_singleton_r.
  - exists m2. split; [done|]. rewrite Hf2', Hq2, Hs2, Hc2, Ho2. repeat split; try done.
    by rewrite difference_empty_L.
  - exists m2. split; [done|]. rewrite Hf2', Hq2, Hs2, Hc2, Ho2. repeat split; try done.
    by rewrite difference_empty_L.
Qed.

(** ** The admission bound *)

Lemma step_slots dl j w m st' m' :
  process_download_step dl j w m = Some (st', m') →
  (slot st' + download_semaphore m' = slot (job_stage j) + download_semaphore m)%nat.
Proof.
  unfold process_download_step.
  destruct (job_stage j) as [| | | | |filepath thumb_path|r] eqn:Hst;
    destruct w as [|r'| |env tenv|sent renv]; try done.
  - rewrite process_download_begin_spec. by intros [= <- <-].
  - destruct r' as [[]|e]; by intros [= <- <-].
  - unfold acquire. destruct (download_semaphore m) as [|n] eqn:Hs; [done|].
    intros [= <- <-]. simpl. lia.
  - destruct (process_download_fetch_spec dl env tenv (job_video_id j) (job_title j)
                (job_artist j) (job_thumbnail j) m) as (st & m1 & Heq & _ & Hs & _ & Hd).
    unfold inside. rewrite Heq. intros [= <- <-]. rewrite Hs.
    destruct (if raised _ then _ else _); [destruct Hd as (? & -> & _)|destruct Hd as (-> & _)]; done.
  - unfold leave, try_finally, call, release, modify. simpl.
    intros [= <- <-]. simpl. lia.
  - destruct (process_download_deliver_spec sent renv (job_video_id j) filepath thumb_path m)
      as (m1 & Heq & _ & _ & Hs & _).
    unfold leave, try_finally. rewrite Heq. unfold release, modify. simpl.
    intros [= <- <-]. simpl. lia.
Qed.

Lemma holders_insert (js : list job) i j j' :
  js !! i = Some j →
  (length (filter (λ j, holds_slot (job_stage j) = true) (<[i:=j']> js)) + slot (job_stage j)
   = length (filter (λ j, holds_slot (job_stage j) = true) js) + slot (job_stage j'))%nat.
Proof.
  revert i. induction js as [|x js IH]; intros i Hi; [done|].
  destruct i as [|i]; simpl in *.
  - injection Hi as ->. rewrite !filter_cons. unfold slot.
    repeat case_decide; destruct (holds_slot (job_stage j)), (holds_slot (job_stage j'));
      simpl; try done; lia.
  - specialize (IH i Hi). rewrite !filter_cons. case_decide; simpl; lia.
Qed.

Lemma download_handler_keeps_semaphore env data :
  keeps download_semaphore (download_handler env data).
Proof. unfold download_handler. keeps_auto. Qed.

Lemma build_results_keyboard_keeps_semaphore songs page uid :
  keeps download_semaphore (build_results_keyboard songs page uid).
Proof. unfold build_results_keyboard. keeps_auto. Qed.

Lemma search_handler_keeps_semaphore env uid text :
  keeps download_semaphore (search_handler env uid text).
Proof.
  unfold search_handler. keeps_auto; apply build_results_keyboard_keeps_semaphore.
Qed.

Lemma lyrics_handler_keeps_semaphore env data :
  keeps download_semaphore (lyrics_handler env data).
Proof. unfold lyrics_handler. keeps_auto. Qed.

Lemma download_handler_job env data m j m' :
  download_handler env data m = (Return (Some j), m') → job_stage j = Created.
Proof.
  unfold download_handler, bind, call, gets, send, modify, ret.
  repeat case_match; simplify_eq; try done.
  by intros [= <- _].
Qed.

Lemma handle_slots dl w e :
  (holders w + download_semaphore (store w) = Z.to_nat MAX_CONCURRENT_DOWNLOADS)%nat →
  (holders (handle dl w e) + download_semaphore (store (handle dl w e))
   = Z.to_nat MAX_CONCURRENT_DOWNLOADS)%nat.
Proof.
  intros Hinv. destruct e as [env data|env data|env uid text|i wk]; simpl.
  - pose proof (download_handler_keeps_semaphore env data (store w)) as Hs.
    destruct (download_handler env data (store w)) as [[[j|]|e] m'] eqn:Hh;
      simpl in *; unfold holders in *; simpl; rewrite Hs; try done.
    apply download_handler_job in Hh.
    rewrite filter_app, length_app, filter_cons.
    case_decide as Hd; [by rewrite Hh in Hd|]. simpl. lia.
  - unfold holders in *. simpl. by rewrite lyrics_handler_keeps_semaphore.
  - unfold holders in *. simpl. by rewrite search_handler_keeps_semaphore.
  - destruct (jobs w !! i) as [j|] eqn:Hj; [|done].
    destruct (process_download_step dl j wk (store w)) as [[st' m']|] eqn:Hstep; [|done].
    apply step_slots in Hstep. unfold holders in *. simpl.
    pose proof (holders_insert (jobs w) i j (at_stage st' j) Hj) as Hins.
    simpl in Hins. lia.
Qed.

Lemma run_slots dl events w :
  (holders w + download_semaphore (store w) = Z.to_nat MAX_CONCURRENT_DOWNLOADS)%nat →
  (holders (run dl w events) + download_semaphore (store (run dl w events))
   = Z.to_nat MAX_CONCURRENT_DOWNLOADS)%nat.
Proof.
  unfold run. revert w. induction events as [|e events IH]; intros w Hw; [done|].
  simpl. apply IH. by apply handle_slots.
Qed.

(** ** One request on its own *)

Lemma removed_twice_l (X Y : gset (list N)) (p : pystr) : p ∉ X ∖ {[p]} ∖ Y.
Proof.
  intros [[_ H]%elem_of_difference _]%elem_of_difference.
  by apply H, elem_of_singleton.
Qed.

Lemma removed_twice_r (X : gset (list N)) (p q : pystr) : q ∉ X ∖ {[p]} ∖ {[q]}.
Proof. intros [_ H]%elem_of_difference. by apply H, elem_of_singleton. Qed.

Lemma drive_unfold fuel env dl j m :
  drive dl (S fuel) env j m =
    match job_stage j with
    | Finished r => Some (r, m)
    | st =>
        match wakeup_for env st with
        | Some w =>
            match process_download_step dl j w m with
            | Some (st', m') => drive dl fuel env (at_stage st' j) m'
            | None => None
            end
        | None => None
        end
    end.
Proof. simpl. by destruct (job_stage j). Qed.

Lemma drive_finished fuel env dl j m r :
  job_stage j = Finished r → drive dl fuel env j m = Some (r, m).
Proof. intros H. destruct fuel; simpl; by rewrite H. Qed.

Ltac drive_step :=
  cbv beta iota;
  rewrite drive_unfold;
  cbn [job_stage wakeup_for at_stage job_video_id job_title job_artist job_thumbnail];
  unfold process_download_step;
  cbn [job_stage at_stage job_video_id job_title job_artist job_thumbnail].

(** The whole run, outcome by outcome.  [d] is what [download_song]
    returns; the notice is the one sent for the position in the queue.
    After a delivery the disk holds what yt-dlp left and the cover, less
    the audio file and the cover where [os.remove] returned. *)
Lemma process_download_run dl env vid t a th m :
  let k := len (download_queue m) + 1 in
  let notice := CallbackAnswer
     (if MAX_CONCURRENT_DOWNLOADS <? k
      then txt.queued ++ py_str_int (k - MAX_CONCURRENT_DOWNLOADS)
      else txt.downloading) in
  let final_path := final_path_of dl vid t a in
  let d := if raised (ydl_download (download env)) then None
           else if bool_decide (final_path ∈ ydl_files (download env))
                then Some final_path else None in
  match position_notice env with
  | Raise e =>
      ∃ m', process_download dl env vid t a th m = Some (Raise e, m')
        ∧ download_queue m' = download_queue m ++ [vid]
        ∧ download_semaphore m' = download_semaphore m
        ∧ files m' = files m
        ∧ audio_cache m' = audio_cache m
        ∧ outbox m' = outbox m ++ [notice]
  | Return _ =>
      match download_semaphore m with
      | O => process_download dl env vid t a th m = None
      | S _ =>
          ∃ r m', process_download dl env vid t a th m = Some (r, m')
            ∧ download_queue m' = dequeued vid (download_queue m ++ [vid])
            ∧ download_semaphore m' = download_semaphore m
            ∧ match d with
              | None =>
                  r = failure_notice env
                  ∧ files m' = ydl_files (download env)
                  ∧ audio_cache m' = audio_cache m
                  ∧ outbox m' = outbox m ++ [notice; MessageAnswer txt.download_failed]
              | Some filepath =>
                  ∃ thumb_path,
                    r = match upload env with Return _ => Return tt | Raise e => Raise e end
                    ∧ files m' = (ydl_files (download env)
                                  ∪ match thumb_path with Some p => {[p]} | None => ∅ end)
                                 ∖ (if raised (audio_removed (removal env))
                                    then ∅ else {[filepath]})
                                 ∖ match thumb_path with
                                   | Some p => if raised (thumb_removed (removal env))
                                               then ∅ else {[p]}
                                   | None => ∅
                                   end
                    ∧ audio_cache m' = match upload env with
                                       | Return (Some file_id) => <[vid := file_id]> (audio_cache m)
                                       | _ => audio_cache m
                                       end
                    ∧ outbox m' = outbox m ++ [notice; AnswerAudioFile filepath thumb_path t a]
                    ∧ match thumb_path with
                      | Some p => last p = Some 103%N
                      | None => True
                      end
                    ∧ (∀ e, audio_removed (removal env) = Raise e →
                         last (console m') = Some (LogCleanupError e))
              end
      end
  end.
Proof.
  intros k notice final_path d. unfold process_download.
  pose proof (process_download_begin_spec vid m) as Hbegin.
  fold k in Hbegin. fold notice in Hbegin. cbv zeta in Hbegin.
  set (m1 := set_outbox _ _) in Hbegin.
  destruct (position_notice env) as [[]|e] eqn:Hnotice.
  2:{ drive_step. rewrite Hbegin. drive_step. rewrite Hnotice.
      cbv beta iota.
      rewrite (drive_finished _ _ _ _ _ (Raise e)) by done. by exists m1. }
  destruct (download_semaphore m) as [|n] eqn:Hsem.
  { drive_step. rewrite Hbegin. drive_step. rewrite Hnotice. drive_step.
    unfold acquire. change (download_semaphore m1) with (download_semaphore m).
    by rewrite Hsem. }
  drive_step. rewrite Hbegin. drive_step. rewrite Hnotice. drive_step.
  unfold acquire. change (download_semaphore m1) with (download_semaphore m).
  rewrite Hsem. set (m2 := set_download_semaphore _ m1).
  drive_step.
  destruct (process_download_fetch_spec dl (download env) (cover env) vid t a th m2)
    as (st & m3 & Heq & Hq3 & Hs3 & Hc3 & Hd).
  fold final_path in Hd. fold d in Hd. unfold inside. rewrite Heq.
  destruct d as [filepath|] eqn:Hdv.
  - destruct Hd as (thp & -> & Hf3 & Htr & Ho3).
    assert (filepath ∈ ydl_files (download env)) as Hin.
    { unfold d in Hdv. destruct (raised _); [done|]. case_bool_decide; [|done].
      by injection Hdv as <-. }
    drive_step.
    destruct (process_download_deliver_spec (upload env) (removal env) vid filepath thp m3)
      as (m4 & Heq4 & Hf4 & Hq4 & Hs4 & Ho4 & Hc4 & Hl4).
    unfold leave, try_finally. rewrite Heq4. unfold release, modify.
    rewrite (drive_finished _ _ _ _ _ (match upload env with Return _ => Return tt | Raise e => Raise e end))
      by done.
    eexists _, _. split; [reflexivity|]. simpl.
    rewrite Hq4, Hs4, Hq3, Hs3. split; [done|]. split; [done|].
    exists thp. split; [done|]. rewrite Hf4, Hf3, Hc4, Hc3, Ho4, Ho3. simpl.
    rewrite <- app_assoc. split; [|split; [done|split; [done|split]]].
    + destruct thp as [p|]; [|done]. destruct Htr as [-> _]. simpl.
      by destruct (raised (thumb_removed (removal env))).
    + destruct thp as [p|]; [apply Htr|done].
    + intros e He. rewrite (Hl4 e He); [by rewrite last_snoc|].
      rewrite Hf3. apply elem_of_union. by left.
  - destruct Hd as (-> & Hf3 & Ho3).
    drive_step. unfold leave, try_finally, call, release, modify.
    rewrite (drive_finished _ _ _ _ _ (failure_notice env)) by done.
    eexists _, _. split; [reflexivity|]. simpl.
    rewrite Hq3, Hs3, Hf3, Hc3, Ho3. simpl. rewrite <- app_assoc. done.
Qed.

Lemma dequeued_own_entry vid (q : list pystr) :
  length (dequeued vid (q ++ [vid])) = length q.
Proof.
  unfold dequeued.
  destruct (py_list_remove_elem vid (q ++ [vid])) as (l' & -> & Hlen).
  { apply elem_of_app. right. apply list_elem_of_here. }
  rewrite length_app in Hlen. simpl in Hlen. lia.
Qed.

(** A request whose position notice went through gives back what it
    took: the queue is as long as before and so is the count of free
    slots, however the download and the upload end. *)
Lemma process_download_restores_baseline dl env vid t a th m r m' :
  position_notice env = Return tt →
  process_download dl env vid t a th m = Some (r, m') →
  length (download_queue m') = length (download_queue m)
  ∧ download_semaphore m' = download_semaphore m.
Proof.
  intros Hn Hrun. pose proof (process_download_run dl env vid t a th m) as H.
  cbv zeta in H. rewrite Hn in H.
  destruct (download_semaphore m) as [|n] eqn:Hs; [congruence|].
  destruct H as (r0 & m0 & Heq & Hq & Hsem & _).
  rewrite Heq in Hrun. injection Hrun as <- <-.
  by rewrite Hq, dequeued_own_entry.
Qed.

(** When the position notice raises, the coroutine ends there: the id it
    appended stays in the queue. *)
Lemma process_download_notice_raises dl env vid t a th m e :
  position_notice env = Raise e →
  ∃ m', process_download dl env vid t a th m = Some (Raise e, m')
    ∧ download_queue m' = download_queue m ++ [vid]
    ∧ download_semaphore m' = download_semaphore m.
Proof.
  intros Hn. pose proof (process_download_run dl env vid t a th m) as H.
  cbv zeta in H. rewrite Hn in H. destruct H as (m' & ? & ? & ? & _). by exists m'.
Qed.

(** Among other tasks too: the wake-up that ends a delivering task ends
    it as the upload ended, and takes off the disk the audio file and the
    cover, each unless [os.remove] raised on it, and nothing else. *)
Lemma delivering_step_files dl j sent renv m st' m' filepath thumb_path :
  job_stage j = Delivering filepath thumb_path →
  process_download_step dl j (Uploaded sent renv) m = Some (st', m') →
  st' = Finished (match sent with Return _ => Return tt | Raise e => Raise e end)
  ∧ files m' = files m ∖ (if raised (audio_removed renv) then ∅ else {[filepath]})
               ∖ (match thumb_path with
                  | Some p => if truthy p && negb (raised (thumb_removed renv))
                              then {[p]} else ∅
                  | None => ∅
                  end).
Proof.
  intros Hst. unfold process_download_step. rewrite Hst.
  destruct (process_download_deliver_spec sent renv (job_video_id j) filepath thumb_path m)
    as (m1 & Heq & Hf & _).
  unfold leave, try_finally. rewrite Heq. unfold release, modify.
  intros [= <- <-]. simpl. by rewrite Hf.
Qed.

(** ** The claims *)

(** C1.  However download requests, searches and wake-ups are interleaved,
    the tasks that have passed [async with download_semaphore] and not
    left it number at most [MAX_CONCURRENT_DOWNLOADS]; together with the
    free slots they are exactly that many. *)
Theorem admission_bound dl fs events :
  let w := run dl (initial fs) events in
  (holders w ≤ Z.to_nat MAX_CONCURRENT_DOWNLOADS)%nat
  ∧ (holders w + download_semaphore (store w) = Z.to_nat MAX_CONCURRENT_DOWNLOADS)%nat.
Proof.
  intros w. pose proof (run_slots dl events (initial fs) eq_refl) as H.
  fold w in H. lia.
Qed.

(** The bound is met: of five requests woken in turn, three download and
    two wait. *)
Example admission_bound_met :
  let press i := DownloadPressed sample.press (lit "dl:" ++ py_str_int i) in
  let w := run sample.DOWNLOAD_PATH (initial ∅)
             ((press <$> [1; 2; 3; 4; 5])
              ++ ((λ i, Wake i Scheduled) <$> seq 0 5)
              ++ ((λ i, Wake i (Answered (Return tt))) <$> seq 0 5)
              ++ ((λ i, Wake i Acquired) <$> seq 0 5)) in
  job_stage <$> jobs w = [Downloading; Downloading; Downloading; Waiting; Waiting]
  ∧ download_semaphore (store w) = 0%nat.
Proof. vm_compute. done. Qed.

(** C2.  The position notice fails (the transport raises on
    [callback.answer]): the task is over, no slot is taken, and the id of
    the request is still in the queue. *)
Theorem notice_failure_leaves_id_queued :
  let w := run sample.DOWNLOAD_PATH (initial ∅)
             [ DownloadPressed sample.press (lit "dl:abc");
               Wake 0 Scheduled;
               Wake 0 (Answered (Raise (OtherError 0))) ] in
  job_stage <$> jobs w = [Finished (Raise (OtherError 0))]
  ∧ download_queue (store w) = [lit "abc"]
  ∧ download_queue (store (initial ∅)) = []
  ∧ download_semaphore (store w) = download_semaphore (store (initial ∅)).
Proof. vm_compute. done. Qed.

(** C3.  The first lines of [process_download] append the id, so that it
    sits at 1-based position [k], the length of the queue; the notice says
    "downloading" for [k <= MAX_CONCURRENT_DOWNLOADS] and "queued" with
    number [k - MAX_CONCURRENT_DOWNLOADS] beyond, which is 1 for the
    request after a full house. *)
Theorem enqueue_position vid m :
  let k := len (download_queue m) + 1 in
  let m' := (process_download_begin vid m).2 in
  (process_download_begin vid m).1 = Return tt
  ∧ download_queue m' = download_queue m ++ [vid]
  ∧ len (download_queue m') = k
  ∧ download_queue m' !! Z.to_nat (k - 1) = Some vid
  ∧ outbox m' = outbox m ++
      [CallbackAnswer
         (if k <=? MAX_CONCURRENT_DOWNLOADS then txt.downloading
          else txt.queued ++ py_str_int (k - MAX_CONCURRENT_DOWNLOADS))]
  ∧ (if k =? MAX_CONCURRENT_DOWNLOADS + 1
     then last (outbox m') = Some (CallbackAnswer (txt.queued ++ lit "1"))
     else True).
Proof.
  intros k m'. subst m'. rewrite process_download_begin_spec. fold k. simpl.
  assert (len (download_queue m ++ [vid]) = k) as Hk.
  { unfold k, len. rewrite length_app. simpl. lia. }
  repeat split; try done.
  - replace (Z.to_nat (k - 1)) with (length (download_queue m)) by (unfold k, len; lia).
    by rewrite lookup_app_r, Nat.sub_diag.
  - do 3 f_equal. unfold MAX_CONCURRENT_DOWNLOADS.
    destruct (Z.leb_spec k 3), (Z.ltb_spec 3 k); try done; lia.
  - destruct (Z.eqb_spec k (MAX_CONCURRENT_DOWNLOADS + 1)) as [->|]; [|done].
    by rewrite last_snoc.
Qed.

(** C7.  The metadata lookup of the handlers is a total function: the
    stored triple for an id that is present, three empty strings for one
    that is not. *)
Theorem metadata_get_total (md : gmap (list N) (list N * list N * list N)) (vid : pystr) :
  metadata_get md vid =
    match md !! vid with
    | Some (title, artist, thumbnail_ref) => (title, artist, thumbnail_ref)
    | None => (lit "", lit "", lit "")
    end.
Proof. unfold metadata_get. by destruct (md !! vid) as [[[??]?]|]. Qed.

(** Both handlers that look an id up go through without raising when
    the id was never rendered. *)
Example handlers_accept_unknown_id :
  (lyrics_handler (mkLyricsEnv (Return tt) None (Return tt)) (lit "lyrics:zzz")
     sample.boot).1 = Return tt
  ∧ (download_handler sample.press (lit "dl:zzz") sample.boot).1
    = Return (Some (mkJob (lit "zzz") [] [] [] Created)).
Proof. vm_compute. done. Qed.

(** C10.  [download_song] always returns.  It returns [None] when
    [ydl.download] raised or no file is at the expected path, and
    otherwise that path, at which a file then exists. *)
Theorem download_song_returns_existing_path dl env vid t a th m :
  ∃ r m',
    download_song dl env vid t a th m = (Return r, m')
    ∧ r = (if raised (ydl_download env) then None
           else if bool_decide (final_path_of dl vid t a ∈ files m')
                then Some (final_path_of dl vid t a) else None)
    ∧ match r with
      | Some path => path ∈ files m'
      | None => True
      end.
Proof.
  destruct (download_song_spec dl env vid t a th m) as (m' & Heq & Hf & _).
  eexists _, m'. split; [exact Heq|]. rewrite Hf. split; [done|].
  destruct (raised _); [done|]. by case_bool_decide.
Qed.

(** The three ways out, on sample inputs. *)
Example download_song_outcomes :
  let final_path := final_path_of sample.DOWNLOAD_PATH (lit "abc") [] [] in
  let ok := sample.download_ok (lit "abc") in
  let raising := mkDownloadEnv (Raise (OtherError 1)) {[ final_path ]}
                   (Return tt) (Return tt) (Raise (OtherError 2)) (Return tt) in
  let missing := mkDownloadEnv (Return tt) ∅
                   (Return tt) (Return tt) (Raise (OtherError 2)) (Return tt) in
  final_path = lit "downloads/abc.mp3"
  ∧ (download_song sample.DOWNLOAD_PATH ok (lit "abc") [] [] [] sample.boot).1
    = Return (Some final_path)
  ∧ (download_song sample.DOWNLOAD_PATH raising (lit "abc") [] [] [] sample.boot).1
    = Return None
  ∧ (download_song sample.DOWNLOAD_PATH missing (lit "abc") [] [] [] sample.boot).1
    = Return None.
Proof. vm_compute. done. Qed.

(** C8, as amended.  A run whose download gave a file hands that file,
    and the cover if it made one, to the upload, and ends as the upload
    ended, returned or raised.  When it is over the audio file is off the
    disk if [os.remove] returned on it; if [os.remove] raised, the error
    is printed and the file is still there.  The same holds for the cover,
    whose error is swallowed without a line.  Nothing else that the run
    put on the disk is left: what remains is what yt-dlp left, and a cover
    that could not be removed.  Removing a file that is not there raises
    nothing: [cleanup_file] returns and leaves the store alone, and the
    [finally] block passes on what the upload did. *)
Theorem temp_files_removed dl env vid t a th m r m' :
  process_download dl env vid t a th m = Some (r, m') →
  position_notice env = Return tt →
  ydl_download (download env) = Return tt →
  final_path_of dl vid t a ∈ ydl_files (download env) →
  let filepath := final_path_of dl vid t a in
  (∃ notice thumb_path,
     outbox m' = outbox m ++ [notice; AnswerAudioFile filepath thumb_path t a]
     ∧ r = match upload env with Return _ => Return tt | Raise e => Raise e end
     ∧ (audio_removed (removal env) = Return tt → filepath ∉ files m')
     ∧ (∀ e, audio_removed (removal env) = Raise e →
          filepath ∈ files m' ∧ last (console m') = Some (LogCleanupError e))
     ∧ (∀ p, thumb_path = Some p →
          (thumb_removed (removal env) = Return tt → p ∉ files m')
          ∧ (∀ e, thumb_removed (removal env) = Raise e → p ∈ files m'))
     ∧ (∀ q, q ∈ files m' →
          q ∈ ydl_files (download env)
          ∨ (thumb_path = Some q ∧ raised (thumb_removed (removal env)) = true)))
  ∧ (∀ removed path m0,
       path ∉ files m0 → cleanup_file removed path m0 = (Return tt, m0))
  ∧ (∀ sent renv path thumb_path m0,
       (process_download_deliver sent renv vid path thumb_path m0).1
       = match sent with Return _ => Return tt | Raise e => Raise e end).
Proof.
  intros Hrun Hn Hy Hin filepath.
  pose proof (process_download_run dl env vid t a th m) as H.
  cbv zeta in H. rewrite Hn, Hy in H. cbn [raised] in H.
  rewrite bool_decide_eq_true_2 in H by done. fold filepath in H.
  split; [|split].
  - destruct (download_semaphore m); [congruence|].
    destruct H as (r0 & m0 & Heq & _ & _ & thp & Hr & Hf & _ & Ho & Hjpg & Hlog).
    rewrite Heq in Hrun. injection Hrun as <- <-.
    assert (∀ p, thp = Some p → p ≠ filepath) as Hne.
    { intros p -> ->. unfold filepath in Hjpg. by rewrite final_path_last in Hjpg. }
    eexists _, thp. split; [exact Ho|]. split; [exact Hr|].
    rewrite Hf.
    split; [|split; [|split]].
    + intros ->. simpl. intros [[_ Hnot]%elem_of_difference _]%elem_of_difference.
      by apply Hnot, elem_of_singleton.
    + intros e He. split; [|by apply Hlog]. rewrite He. simpl.
      apply elem_of_difference. split.
      * apply elem_of_difference. split; [apply elem_of_union; by left|].
        by intros ?%elem_of_empty.
      * destruct thp as [p|]; [|by intros ?%elem_of_empty].
        destruct (raised (thumb_removed (removal env))); [by intros ?%elem_of_empty|].
        intros Heq'%elem_of_singleton. by apply (Hne p).
    + intros p ->. split.
      * intros ->. simpl. intros [_ Hnot]%elem_of_difference.
        by apply Hnot, elem_of_singleton.
      * intros e ->. simpl. apply elem_of_difference. split; [|by intros ?%elem_of_empty].
        apply elem_of_difference. split; [apply elem_of_union; right; by apply elem_of_singleton|].
        destruct (raised (audio_removed (removal env))); [by intros ?%elem_of_empty|].
        intros Heq'%elem_of_singleton. by apply (Hne p).
    + intros q [[Hq _]%elem_of_difference Hnot]%elem_of_difference.
      apply elem_of_union in Hq as [Hq|Hq]; [by left|]. right.
      destruct thp as [p|]; [|by apply elem_of_empty in Hq].
      apply elem_of_singleton in Hq as ->. split; [done|].
      destruct (raised (thumb_removed (removal env))); [done|]. exfalso. by apply Hnot, elem_of_singleton.
  - intros removed path m0 Hnot.
    destruct (cleanup_file_spec removed path m0) as (m1 & Heq & _ & _ & _ & _ & _ & Hid & _).
    by rewrite Heq, (Hid Hnot).
  - intros sent renv path thumb_path m0.
    destruct (process_download_deliver_spec sent renv vid path thumb_path m0) as (m1 & -> & _).
    done.
Qed.

Lemma temp_files_removed_witness :
  let thumbnail_url := lit "https://img.example/cover.jpg" in
  let env := sample.pipeline_ok (lit "abc") in
  ∃ r m' notice thumb_path,
    process_download sample.DOWNLOAD_PATH env (lit "abc") [] [] thumbnail_url sample.boot
    = Some (r, m')
    ∧ outbox m' = outbox sample.boot
                  ++ [notice; AnswerAudioFile (lit "downloads/abc.mp3") thumb_path [] []]
    ∧ (lit "downloads/abc.mp3" ∉ files m')
    ∧ ∀ p, thumb_path = Some p → p ∉ files m'.
Proof.
  intros thumbnail_url env. eexists _, _.
  assert (∀ A (P : output → option pystr → Prop),
            A → (∃ notice thumb_path, P notice thumb_path) →
            ∃ notice thumb_path, A ∧ P notice thumb_path) as Hswap.
  { intros A P HA (notice & thumb_path & HP). by exists notice, thumb_path. }
  apply Hswap; [vm_compute; reflexivity|].
  destruct (temp_files_removed sample.DOWNLOAD_PATH env (lit "abc") [] [] thumbnail_url
              sample.boot _ _ ltac:(vm_compute; reflexivity) eq_refl eq_refl
              ltac:(refine (bool_decide_unpack _ _); vm_compute; exact I))
    as [(notice & thumb_path & Ho & _ & Haudio & _ & Hthumb & _) _].
  exists notice, thumb_path. split; [exact Ho|]. split; [exact (Haudio eq_refl)|].
  intros p Hp. exact (proj1 (Hthumb p Hp) eq_refl).
Defined.

(** C8, as stated, fails in two ways.  When yt-dlp raises after it has
    written the file, [download_song] returns [None] and the run ends at
    the failure message, before the [try]: the file stays.  When
    [os.remove] raises on both files of a delivery, the run ends as if
    nothing had happened: both files stay, and a line is printed for the
    audio file. *)
Lemma failed_cleanup_leaves_files :
  let audio := lit "downloads/abc.mp3" in
  let thumbnail_url := lit "https://img.example/cover.jpg" in
  let failing :=
    mkPipelineEnv (Return tt)
      (mkDownloadEnv (Raise (OtherError 4)) {[ audio ]} (Return tt) (Return tt)
         (Raise (OtherError 5)) (Return tt))
      sample.cover_ok (Return tt) (Return None) sample.removal_ok in
  let locked :=
    mkPipelineEnv (Return tt) (sample.download_ok (lit "abc")) sample.cover_ok (Return tt)
      (Return (Some (lit "file-id")))
      (mkRemovalEnv (Raise (OtherError 13)) (Raise (OtherError 13))) in
  final_path_of sample.DOWNLOAD_PATH (lit "abc") [] [] = audio
  ∧ match process_download sample.DOWNLOAD_PATH failing (lit "abc") [] [] thumbnail_url
            sample.boot with
    | Some (r, m') =>
        r = Return tt
        ∧ last (outbox m') = Some (MessageAnswer txt.download_failed)
        ∧ elements (files sample.boot) = []
        ∧ elements (files m') = [audio]
    | None => False
    end
  ∧ match process_download sample.DOWNLOAD_PATH locked (lit "abc") [] [] thumbnail_url
            sample.boot with
    | Some (r, m') =>
        r = Return tt
        ∧ last (outbox m')
          = Some (AnswerAudioFile audio (Some (lit "/tmp/tmpab12.jpg")) [] [])
        ∧ last (console m') = Some (LogCleanupError (OtherError 13))
        ∧ audio ∈ files m'
        ∧ lit "/tmp/tmpab12.jpg" ∈ files m'
    | None => False
    end.
Proof.
  vm_compute. repeat split; reflexivity.
Qed.

(** The run in which everything works, looked at: the audio and the cover
    went to the upload, and the disk is empty again. *)
Example process_download_leaves_no_file :
  match process_download sample.DOWNLOAD_PATH (sample.pipeline_ok (lit "abc"))
          (lit "abc") [] [] (lit "https://img.example/cover.jpg") sample.boot with
  | Some (r, m') =>
      r = Return tt
      ∧ last (outbox m') = Some (AnswerAudioFile (lit "downloads/abc.mp3")
                                   (Some (lit "/tmp/tmpab12.jpg")) [] [])
      ∧ elements (files m') = []
      ∧ audio_cache m' !! lit "abc" = Some (lit "file-id")
  | None => False
  end.
Proof. vm_compute. done. Qed.

Lemma download_handler_cached env data vid file_id m :
  py_index (py_split 58 data) 1 = Return vid →
  audio_cache m !! vid = Some file_id →
  ∃ r rest,
    download_handler env data m
    = (r, set_outbox (λ b, b ++ AnswerAudioCached file_id :: rest) m)
    ∧ ∀ j, r ≠ Return (Some j).
Proof.
  intros Hvid Hcached. unfold download_handler, bind, call, gets, send, modify, ret.
  rewrite Hvid, Hcached.
  destruct (cached_sent env) as [[]|e1]; [destruct (cached_acked env) as [[]|e2]|].
  - exists (Return None), [CallbackAnswer txt.from_cache]. split; [|done].
    unfold set_outbox. simpl. by rewrite <- app_assoc.
  - exists (Raise e2), [CallbackAnswer txt.from_cache]. split; [|done].
    unfold set_outbox. simpl. by rewrite <- app_assoc.
  - by exists (Raise e1), [].
Qed.

(** C6.  A press on the download button for an id that is in
    [audio_cache] sends the cached file first and creates no task; the
    queue, the semaphore, the caches and the disk are as before. *)
Theorem cached_download_short_circuits dl env data vid file_id w :
  py_index (py_split 58 data) 1 = Return vid →
  audio_cache (store w) !! vid = Some file_id →
  let w' := handle dl w (DownloadPressed env data) in
  jobs w' = jobs w
  ∧ download_queue (store w') = download_queue (store w)
  ∧ download_semaphore (store w') = download_semaphore (store w)
  ∧ audio_cache (store w') = audio_cache (store w)
  ∧ song_metadata (store w') = song_metadata (store w)
  ∧ search_cache (store w') = search_cache (store w)
  ∧ files (store w') = files (store w)
  ∧ ∃ rest, outbox (store w') = outbox (store w) ++ AnswerAudioCached file_id :: rest.
Proof.
  intros Hvid Hcached w'. subst w'.
  destruct (download_handler_cached env data vid file_id (store w) Hvid Hcached)
    as (r & rest & Heq & Hr).
  unfold handle. rewrite Heq.
  assert (∀ js, (match r with
                 | Return (Some j) => mkWorld (set_outbox (λ b, b ++ AnswerAudioCached file_id :: rest) (store w)) (jobs w ++ [j])
                 | _ => mkWorld (set_outbox (λ b, b ++ AnswerAudioCached file_id :: rest) (store w)) js
                 end) = mkWorld (set_outbox (λ b, b ++ AnswerAudioCached file_id :: rest) (store w)) js)
    as ->.
  { intros js. destruct r as [[j|]|e]; [by destruct (Hr j)|done|done]. }
  simpl. repeat split. by exists rest.
Qed.

Lemma cached_download_short_circuits_witness :
  let w := run sample.DOWNLOAD_PATH (initial ∅)
             [ DownloadPressed sample.press (lit "dl:abc");
               Wake 0 Scheduled; Wake 0 (Answered (Return tt)); Wake 0 Acquired;
               Wake 0 (Downloaded (sample.download_ok (lit "abc")) sample.cover_ok);
               Wake 0 (Uploaded (Return (Some (lit "file-id"))) sample.removal_ok) ] in
  let w' := handle sample.DOWNLOAD_PATH w (DownloadPressed sample.press (lit "dl:abc")) in
  jobs w' = jobs w
  ∧ download_queue (store w') = download_queue (store w)
  ∧ download_semaphore (store w') = download_semaphore (store w)
  ∧ audio_cache (store w') = audio_cache (store w)
  ∧ song_metadata (store w') = song_metadata (store w)
  ∧ search_cache (store w') = search_cache (store w)
  ∧ files (store w') = files (store w)
  ∧ ∃ rest, outbox (store w') = outbox (store w) ++ AnswerAudioCached (lit "file-id") :: rest.
Proof.
  intros w.
  apply (cached_download_short_circuits sample.DOWNLOAD_PATH sample.press
           (lit "dl:abc") (lit "abc") (lit "file-id") w).
  - vm_compute. reflexivity.
  - vm_compute. reflexivity.
Defined.

(** ** Slices, pages and the keyboard *)

Lemma py_slice_nonneg {A} (l : list A) (start stop : Z) :
  0 ≤ start ≤ stop →
  py_slice l start stop = take (Z.to_nat (stop - start)) (drop (Z.to_nat start) l).
Proof.
  intros [Hlo Hhi]. unfold py_slice, slice_bound, len.
  destruct (Z.ltb_spec start 0), (Z.ltb_spec stop 0); try lia.
  destruct (Z.le_gt_cases (Z.of_nat (length l)) start) as [Hout|Hin].
  - rewrite !Z.min_r by lia. rewrite !drop_ge by lia. by rewrite !take_nil.
  - rewrite (Z.min_l start) by lia.
    destruct (Z.le_gt_cases stop (Z.of_nat (length l))).
    + by rewrite Z.min_l by lia.
    + rewrite Z.min_r by lia.
      rewrite !take_ge; [done| |]; rewrite length_drop; lia.
Qed.

Lemma ceil_div_pages n :
  0 ≤ n → (n + SONGS_PER_PAGE - 1) / SONGS_PER_PAGE = ceil_div n SONGS_PER_PAGE.
Proof.
  intros Hn. unfold ceil_div, SONGS_PER_PAGE.
  destruct (Z.eqb_spec (n mod 5) 0); Z.div_mod_to_equations; lia.
Qed.

Lemma build_results_keyboard_spec songs page uid m :
  let page_songs := py_slice songs (page * SONGS_PER_PAGE)
                      (page * SONGS_PER_PAGE + SONGS_PER_PAGE) in
  let total_pages := (len songs + SONGS_PER_PAGE - 1) / SONGS_PER_PAGE in
  let nav :=
    (if 0 <? page
     then [mkButton txt.back (lit "page:" ++ py_str_int (page - 1))] else [])
    ++ [mkButton (py_str_int (page + 1) ++ lit "/" ++ py_str_int total_pages)
          (lit "noop")]
    ++ (if page <? total_pages - 1
        then [mkButton txt.forward (lit "page:" ++ py_str_int (page + 1))] else []) in
  build_results_keyboard songs page uid m
  = (Return ((song_row <$> page_songs) ++ [nav]),
     set_song_metadata (λ md, foldl remember md page_songs) m).
Proof.
  intros page_songs total_pages nav.
  unfold build_results_keyboard, bind, modify, ret. cbv zeta.
  fold page_songs. fold total_pages. fold nav.
  assert (∃ b bs, nav = b :: bs) as (b & bs & ->); [|done].
  unfold nav. destruct (0 <? page); simpl; by eexists _, _.
Qed.

Lemma song_row_labels song b :
  b ∈ song_row song → (8226%N ∈ text b ∨ 46%N ∈ text b) ∨ text b = txt.memo.
Proof.
  unfold song_row. intros Hb.
  apply elem_of_cons in Hb as [->|Hb].
  - left. simpl. destruct (55 <? _).
    + right. apply elem_of_app. right. unfold lit. simpl. apply list_elem_of_here.
    + left. apply elem_of_app. right.
      apply elem_of_cons. right. apply list_elem_of_here.
  - apply list_elem_of_singleton in Hb as ->. by right.
Qed.

Lemma arrow_not_in_song_rows label (l : list Song) row b :
  label = txt.back ∨ label = txt.forward →
  row ∈ song_row <$> l → b ∈ row → text b ≠ label.
Proof.
  intros Hlabel Hrow Hb Htext.
  apply list_elem_of_fmap in Hrow as (song & -> & _).
  apply song_row_labels in Hb. rewrite Htext in Hb.
  destruct Hlabel as [->| ->]; destruct Hb as [[Hb|Hb]|Hb]; try done;
    unfold txt.back, txt.forward in Hb;
    repeat (apply elem_of_cons in Hb as [Hb|Hb]; [done|]);
    by apply elem_of_nil in Hb.
Qed.

Lemma indicator_is_no_arrow label (x y : pystr) :
  label = txt.back ∨ label = txt.forward → x ++ lit "/" ++ y ≠ label.
Proof.
  intros Hlabel Heq.
  assert (47%N ∈ label) as Hin.
  { rewrite <- Heq. apply elem_of_app. right. apply list_elem_of_here. }
  destruct Hlabel as [->| ->]; unfold txt.back, txt.forward in Hin;
    repeat (apply elem_of_cons in Hin as [Hin|Hin]; [done|]);
    by apply elem_of_nil in Hin.
Qed.

Lemma nav_row_elem {A} (c1 c2 : bool) (B I F b : A) :
  b ∈ (if c1 then [B] else []) ++ [I] ++ (if c2 then [F] else []) ↔
  (c1 = true ∧ b = B) ∨ b = I ∨ (c2 = true ∧ b = F).
Proof.
  rewrite !elem_of_app, list_elem_of_singleton.
  destruct c1, c2; rewrite ?list_elem_of_singleton, ?elem_of_nil;
    intuition (try discriminate; auto).
Qed.

(** The two buttons of a row, written out. *)
Lemma song_row_buttons song :
  let full := artist song ++ txt.bullet ++ title song in
  song_row song =
    [ mkButton (if 55 <? len full then take 52 full ++ lit "..." else full)
        (lit "dl:" ++ video_id song);
      mkButton txt.memo (lit "lyrics:" ++ video_id song) ].
Proof.
  intros full. unfold song_row. fold full.
  rewrite py_slice_nonneg by lia. by rewrite drop_0.
Qed.

(** The data of a navigation button starts with the [p] of [page:], or is
    [noop]. *)
Lemma nav_row_data page total b :
  b ∈ (if 0 <? page
       then [mkButton txt.back (lit "page:" ++ py_str_int (page - 1))] else [])
      ++ [mkButton (py_str_int (page + 1) ++ lit "/" ++ py_str_int total) (lit "noop")]
      ++ (if page <? total - 1
          then [mkButton txt.forward (lit "page:" ++ py_str_int (page + 1))] else []) →
  head (callback_data b) = Some 112%N ∨ callback_data b = lit "noop".
Proof.
  intros Hb. apply nav_row_elem in Hb as [[_ ->]|[->|[_ ->]]]; simpl; auto.
Qed.

(** C4.  For a page index that is not negative, the keyboard has one row
    per song of the slice [5p, min(5p+5, R)) of the results, in order,
    followed by the navigation row and nothing else.  The row of a song
    shows its label and carries its id, once for the download and once
    for the lyrics, so that a download button for an id is on the
    keyboard exactly when a song of the slice has that id.  The back
    arrow is on the keyboard exactly when [0 < p] and the forward arrow
    exactly when [p < ceil(R/5) - 1]. *)
Theorem pagination songs page uid m :
  0 ≤ page →
  let R := len songs in
  ∃ keyboard shown nav,
    (build_results_keyboard songs page uid m).1 = Return keyboard
    ∧ keyboard = (song_row <$> shown) ++ [nav]
    ∧ len shown = Z.max 0 (Z.min (5 * page + 5) R - 5 * page)
    ∧ (∀ i : nat, (i < length shown)%nat →
         shown !! i = songs !! (Z.to_nat (5 * page) + i)%nat)
    ∧ (∀ (i : nat) song, shown !! i = Some song →
         keyboard !! i
         = Some [ mkButton (let full := artist song ++ txt.bullet ++ title song in
                            if 55 <? len full then take 52 full ++ lit "..." else full)
                    (lit "dl:" ++ video_id song);
                  mkButton txt.memo (lit "lyrics:" ++ video_id song) ])
    ∧ keyboard !! length shown = Some nav
    ∧ length keyboard = S (length shown)
    ∧ (∀ vid, has_data (lit "dl:" ++ vid) keyboard ↔
              ∃ i song, 5 * page ≤ i < Z.min (5 * page + 5) R
                        ∧ songs !! Z.to_nat i = Some song ∧ video_id song = vid)
    ∧ (∀ b, b ∈ nav →
         text b = txt.back ∨ text b = txt.forward ∨ callback_data b = lit "noop")
    ∧ (has_button txt.back keyboard ↔ 0 < page)
    ∧ (has_button txt.forward keyboard ↔ page < ceil_div R 5 - 1).
Proof.
  intros Hpage R. rewrite build_results_keyboard_spec. cbv zeta.
  set (shown := py_slice songs _ _).
  set (nav := _ ++ _ ++ _).
  exists ((song_row <$> shown) ++ [nav]), shown, nav.
  assert (shown = take 5 (drop (Z.to_nat (5 * page)) songs)) as Hshown.
  { unfold shown, SONGS_PER_PAGE. rewrite py_slice_nonneg by lia.
    f_equal; [lia | f_equal; lia]. }
  assert ((len songs + SONGS_PER_PAGE - 1) / SONGS_PER_PAGE = ceil_div R 5) as Htotal.
  { unfold R. apply ceil_div_pages. unfold len. lia. }
  assert (len shown = Z.max 0 (Z.min (5 * page + 5) R - 5 * page)) as Hlen.
  { rewrite Hshown. unfold len, R, len. rewrite length_take, length_drop. lia. }
  assert (∀ i : nat, (i < length shown)%nat →
            shown !! i = songs !! (Z.to_nat (5 * page) + i)%nat) as Hidx.
  { intros i Hi. rewrite Hshown in *. rewrite length_take in Hi.
    rewrite lookup_take_lt by lia. apply lookup_drop. }
  assert (∀ label, label = txt.back ∨ label = txt.forward →
            (has_button label ((song_row <$> shown) ++ [nav])
             ↔ ∃ b, b ∈ nav ∧ text b = label)) as Hnav.
  { intros label Hlabel. split.
    - intros (row & b & Hrow & Hb & Ht). apply elem_of_app in Hrow as [Hrow|Hrow].
      + by destruct (arrow_not_in_song_rows label shown row b Hlabel Hrow Hb).
      + apply list_elem_of_singleton in Hrow as ->. by exists b.
    - intros (b & Hb & Ht). exists nav, b. split; [|done].
      apply elem_of_app. right. apply list_elem_of_here. }
  split; [done|]. split; [done|]. split; [done|]. split; [done|].
  split; [|split; [|split; [|split; [|split; [|split]]]]].
  - intros i song Hi. rewrite lookup_app_l.
    2:{ rewrite length_fmap. by apply lookup_lt_Some in Hi. }
    rewrite list_lookup_fmap, Hi. simpl. f_equal. apply song_row_buttons.
  - rewrite lookup_app_r; rewrite length_fmap; [|done]. by rewrite Nat.sub_diag.
  - rewrite length_app, length_fmap. simpl. lia.
  - intros vid. split.
    + intros (row & b & Hrow & Hb & Hdata). apply elem_of_app in Hrow as [Hrow|Hrow].
      * apply list_elem_of_fmap in Hrow as (song & -> & Hsong).
        rewrite song_row_buttons in Hb. cbv zeta in Hb.
        apply elem_of_cons in Hb as [->|Hb].
        -- cbn [callback_data] in Hdata. apply app_inv_head in Hdata.
           apply list_elem_of_lookup in Hsong as [i Hi].
           pose proof (lookup_lt_Some _ _ _ Hi) as Hlt.
           exists (5 * page + Z.of_nat i), song. split; [unfold len in Hlen; lia|].
           split; [|done]. rewrite <- Hi, (Hidx i Hlt). f_equal. lia.
        -- apply list_elem_of_singleton in Hb as ->. cbn [callback_data] in Hdata.
           apply (f_equal head) in Hdata. vm_compute in Hdata. discriminate.
      * apply list_elem_of_singleton in Hrow as ->.
        apply nav_row_data in Hb as [Hb|Hb]; rewrite Hdata in Hb;
          [|apply (f_equal head) in Hb]; vm_compute in Hb; discriminate.
    + intros (i & song & Hi & Hsong & <-).
      assert (shown !! Z.to_nat (i - 5 * page) = Some song) as Hs.
      { rewrite Hidx by (unfold len in Hlen; lia). rewrite <- Hsong. f_equal. lia. }
      exists (song_row song), (mkButton
        (let full := artist song ++ txt.bullet ++ title song in
         if 55 <? len full then take 52 full ++ lit "..." else full)
        (lit "dl:" ++ video_id song)).
      split; [|split; [|done]].
      * apply elem_of_app. left. apply list_elem_of_fmap. exists song. split; [done|].
        by apply list_elem_of_lookup_2 in Hs.
      * rewrite song_row_buttons. apply list_elem_of_here.
  - intros b Hb. apply nav_row_elem in Hb as [[_ ->]|[->|[_ ->]]]; simpl; auto.
  - rewrite Hnav by auto. unfold nav. split.
    + intros (b & Hb & Ht). apply nav_row_elem in Hb as [[Hc _]|[->|[_ ->]]].
      * by apply Z.ltb_lt.
      * by destruct (indicator_is_no_arrow txt.back _ _ (or_introl eq_refl) Ht).
      * done.
    + intros Hp. eexists. split; [apply nav_row_elem; left; split; [|done]|done].
      by apply Z.ltb_lt.
  - rewrite Hnav by auto. unfold nav. rewrite Htotal. split.
    + intros (b & Hb & Ht). apply nav_row_elem in Hb as [[_ ->]|[->|[Hc _]]].
      * done.
      * by destruct (indicator_is_no_arrow txt.forward _ _ (or_intror eq_refl) Ht).
      * by apply Z.ltb_lt.
    + intros Hp. eexists. split; [apply nav_row_elem; right; right; split; [|done]|done].
      by apply Z.ltb_lt.
Qed.

Lemma pagination_witness :
  ∃ keyboard shown nav,
    (build_results_keyboard (sample.songs 7) 1 42 sample.boot).1 = Return keyboard
    ∧ keyboard = (song_row <$> shown) ++ [nav]
    ∧ len shown = Z.max 0 (Z.min (5 * 1 + 5) (len (sample.songs 7)) - 5 * 1)
    ∧ (∀ i : nat, (i < length shown)%nat →
         shown !! i = sample.songs 7 !! (Z.to_nat (5 * 1) + i)%nat)
    ∧ (∀ (i : nat) song, shown !! i = Some song →
         keyboard !! i
         = Some [ mkButton (let full := artist song ++ txt.bullet ++ title song in
                            if 55 <? len full then take 52 full ++ lit "..." else full)
                    (lit "dl:" ++ video_id song);
                  mkButton txt.memo (lit "lyrics:" ++ video_id song) ])
    ∧ keyboard !! length shown = Some nav
    ∧ length keyboard = S (length shown)
    ∧ (∀ vid, has_data (lit "dl:" ++ vid) keyboard ↔
              ∃ i song, 5 * 1 ≤ i < Z.min (5 * 1 + 5) (len (sample.songs 7))
                        ∧ sample.songs 7 !! Z.to_nat i = Some song ∧ video_id song = vid)
    ∧ (∀ b, b ∈ nav →
         text b = txt.back ∨ text b = txt.forward ∨ callback_data b = lit "noop")
    ∧ (has_button txt.back keyboard ↔ 0 < 1)
    ∧ (has_button txt.forward keyboard ↔ 1 < ceil_div (len (sample.songs 7)) 5 - 1).
Proof. apply (pagination (sample.songs 7) 1 42 sample.boot). lia. Defined.

(** Seven results: the second page shows the last two and only the back
    arrow; a page past the end shows none. *)
Example second_page_of_seven :
  let keyboard page := (build_results_keyboard (sample.songs 7) page 42 sample.boot).1 in
  keyboard 1 = Return [ [ mkButton (lit "Artist" ++ txt.bullet ++ lit "Title 5")
                            (lit "dl:vid5");
                          mkButton txt.memo (lit "lyrics:vid5") ];
                        [ mkButton (lit "Artist" ++ txt.bullet ++ lit "Title 6")
                            (lit "dl:vid6");
                          mkButton txt.memo (lit "lyrics:vid6") ];
                        [ mkButton txt.back (lit "page:0");
                          mkButton (lit "2/2") (lit "noop") ] ]
  ∧ keyboard 3 = Return [ [ mkButton txt.back (lit "page:2");
                            mkButton (lit "4/2") (lit "noop") ] ].
Proof. vm_compute. done. Qed.

(** ** The search cache *)

(** What [search_handler] does to [search_cache], in every case. *)
Lemma search_handler_cache env uid message_text m :
  search_cache (search_handler env uid message_text m).2 =
    if truthy (py_strip message_text) then
      match status_sent env, found env with
      | Return _, Return (song :: songs) =>
          <[uid := (py_strip message_text, song :: songs)]> (search_cache m)
      | _, _ => search_cache m
      end
    else search_cache m.
Proof.
  unfold search_handler. destruct (truthy (py_strip message_text)); [|done].
  cbn [negb]. unfold bind at 1.
  assert (∃ m1, try_except (send MessageDelete;; call (deleted env)) (λ _, ret ()) m
                = (Return tt, m1) ∧ search_cache m1 = search_cache m) as (m1 & -> & <-).
  { unfold try_except, bind, send, modify, call, ret.
    destruct (deleted env) as [[]|e]; by eexists. }
  unfold bind at 1, send at 1, modify at 1. unfold bind at 1, call at 1.
  destruct (status_sent env) as [[]|e]; [|done].
  unfold bind at 1, call at 1.
  destruct (found env) as [[|song songs]|e]; [|  |done].
  - unfold bind, send, modify, call. by destruct (edited env).
  - unfold bind at 1, modify at 1.
    set (m2 := set_search_cache _ _).
    set (rest := bind _ _).
    assert (keeps search_cache rest) as Hkeeps.
    { unfold rest. keeps_auto. }
    by rewrite Hkeeps.
Qed.

(** C5, as amended.  A search that finds songs replaces the pair cached
    for the user by the stripped query and the songs found, whatever was
    cached and whatever the query; the lookup for that user then gives
    this pair and no other.  A search that finds nothing leaves the cache
    as it was. *)
Theorem search_replaces_cached_pair env uid message_text songs m :
  truthy (py_strip message_text) = true →
  status_sent env = Return tt →
  found env = Return songs →
  let cache' := search_cache (search_handler env uid message_text m).2 in
  match songs with
  | [] => cache' = search_cache m
  | _ => cache' = <[uid := (py_strip message_text, songs)]> (search_cache m)
         ∧ cache' !! uid = Some (py_strip message_text, songs)
  end.
Proof.
  intros Hq Hs Hf cache'. subst cache'.
  rewrite search_handler_cache, Hq, Hs, Hf.
  destruct songs as [|song songs]; [done|]. split; [done|].
  apply lookup_insert_eq.
Qed.

Lemma search_replaces_cached_pair_witness :
  let env := mkSearchEnv (Return tt) (Return tt) (Return (sample.songs 2)) (Return tt) in
  let m := (search_handler env 42 (lit "first query") sample.boot).2 in
  let cache' := search_cache (search_handler env 42 (lit " second query ") m).2 in
  cache' = <[42 := (py_strip (lit " second query "), sample.songs 2)]> (search_cache m)
  ∧ cache' !! 42 = Some (py_strip (lit " second query "), sample.songs 2).
Proof.
  intros env m.
  apply (search_replaces_cached_pair env 42 (lit " second query ") (sample.songs 2) m).
  - vm_compute. reflexivity.
  - reflexivity.
  - reflexivity.
Defined.

(** C5, as stated, fails: user 42 has the results of "old" cached and
    searches for "new", which finds nothing; the cache still answers with
    the pair of "old". *)
Lemma empty_search_keeps_old_pair :
  let hit := mkSearchEnv (Return tt) (Return tt) (Return (sample.songs 2)) (Return tt) in
  let miss := mkSearchEnv (Return tt) (Return tt) (Return []) (Return tt) in
  let m := (search_handler hit 42 (lit "old") sample.boot).2 in
  let m' := (search_handler miss 42 (lit "new") m).2 in
  search_cache m' !! 42 = Some (lit "old", sample.songs 2)
  ∧ search_cache m' !! 42 ≠ Some (lit "new", []).
Proof. vm_compute. split; [reflexivity|discriminate]. Qed.

(** ** The lyrics message *)

Lemma py_slice_prefix {A} (l : list A) (stop : Z) :
  0 ≤ stop → py_slice l 0 stop = take (Z.to_nat stop) l.
Proof.
  intros Hstop. rewrite py_slice_nonneg by lia.
  change (Z.to_nat 0) with 0%nat. rewrite drop_0. f_equal. lia.
Qed.

(** As long as the header itself has at most 4000 characters, the
    truncation does what its comment says: lyrics longer than what is left
    are cut to that length and get "...", shorter ones go out whole, and
    the message has at most 4003 characters. *)
Lemma lyrics_text_short_header artist title lyrics :
  let header := txt.memo ++ lit " <b>" ++ artist ++ lit " - " ++ title
                ++ lit "</b>" ++ txt.newline ++ txt.newline in
  len header ≤ 4000 →
  lyrics_text artist title lyrics =
    header ++ (if 4000 - len header <? len lyrics
               then take (Z.to_nat (4000 - len header)) lyrics ++ lit "..."
               else lyrics)
  ∧ len (lyrics_text artist title lyrics) ≤ 4003.
Proof.
  intros header Hheader. unfold lyrics_text. fold header.
  rewrite py_slice_prefix by lia. split; [done|].
  unfold len in *.
  destruct (Z.ltb_spec (4000 - Z.of_nat (length header)) (Z.of_nat (length lyrics))).
  - rewrite !length_app, length_take.
    change (length (lit "...")) with 3%nat. lia.
  - rewrite length_app. lia.
Qed.

(** C9.  A title of 3990 characters makes the header 4004 characters
    long, so [max_lyrics_len] is -4 and the slice [lyrics[:-4]] drops the
    last four characters instead of keeping the first few: for lyrics of
    200 characters the message is the header, 196 characters of lyrics and
    "...", 4203 characters in all. *)
Theorem long_header_defeats_truncation :
  let long_title := replicate 3990 97%N in
  let lyrics := replicate 200 98%N in
  let m := set_song_metadata (λ _, {[ lit "abc" := (long_title, [], []) ]}) sample.boot in
  let env := mkLyricsEnv (Return tt) (Some lyrics) (Return tt) in
  let header := txt.memo ++ lit " <b> - " ++ long_title ++ lit "</b>"
                ++ txt.newline ++ txt.newline in
  len header = 4004
  ∧ last (outbox (lyrics_handler env (lit "lyrics:abc") m).2)
    = Some (MessageAnswer (header ++ take 196 lyrics ++ lit "..."))
  ∧ len (header ++ take 196 lyrics ++ lit "...") = 4203.
Proof. vm_compute. done. Qed.

(** * Further properties *)

(** ** File names *)

Lemma py_lstrip_head (s : pystr) :
  match head (py_lstrip s) with
  | Some c => py_isspace c = false
  | None => True
  end.
Proof.
  induction s as [|c s IH]; [done|]. simpl.
  destruct (py_isspace c) eqn:Hc; [done|]. simpl. done.
Qed.

Lemma py_lstrip_suffix (s : pystr) : ∃ spaces, s = spaces ++ py_lstrip s.
Proof.
  induction s as [|c s [spaces IH]]; [by exists []|]. simpl.
  destruct (py_isspace c); [|by exists []].
  exists (c :: spaces). simpl. by f_equal.
Qed.

Lemma py_lstrip_id (s : pystr) :
  match head s with Some c => py_isspace c = false | None => True end →
  py_lstrip s = s.
Proof. destruct s as [|c s]; [done|]. simpl. by intros ->. Qed.

Lemma py_lstrip_last (s : pystr) :
  py_lstrip s ≠ [] → last (py_lstrip s) = last s.
Proof.
  destruct (py_lstrip_suffix s) as [spaces Hs]. intros Hne.
  rewrite Hs at 2. rewrite last_app. by destruct (last (py_lstrip s)) eqn:Hl;
    [|apply last_None in Hl].
Qed.

Lemma head_reverse {A} (l : list A) : head (reverse l) = last l.
Proof.
  induction l as [|x l IH] using rev_ind; [done|].
  by rewrite reverse_snoc, last_snoc.
Qed.

Lemma last_reverse {A} (l : list A) : last (reverse l) = head l.
Proof. by rewrite <- head_reverse, reverse_involutive. Qed.

Lemma py_strip_ends (s : pystr) :
  match head (py_strip s) with Some c => py_isspace c = false | None => True end
  ∧ match last (py_strip s) with Some c => py_isspace c = false | None => True end.
Proof.
  unfold py_strip. rewrite head_reverse, last_reverse. split.
  - destruct (decide (py_lstrip (reverse (py_lstrip s)) = [])) as [->|Hne]; [done|].
    rewrite py_lstrip_last by done. rewrite last_reverse. apply py_lstrip_head.
  - apply py_lstrip_head.
Qed.

Lemma py_strip_id (s : pystr) :
  match head s with Some c => py_isspace c = false | None => True end →
  match last s with Some c => py_isspace c = false | None => True end →
  py_strip s = s.
Proof.
  intros Hh Hl. unfold py_strip. rewrite (py_lstrip_id s) by done.
  rewrite py_lstrip_id by (by rewrite head_reverse).
  apply reverse_involutive.
Qed.

Lemma py_strip_elem (s : pystr) c : c ∈ py_strip s → c ∈ s.
Proof.
  unfold py_strip. rewrite elem_of_reverse. intros Hc.
  destruct (py_lstrip_suffix (reverse (py_lstrip s))) as [sp1 H1].
  assert (c ∈ reverse (py_lstrip s)) as Hc'.
  { rewrite H1. apply elem_of_app. by right. }
  rewrite elem_of_reverse in Hc'.
  destruct (py_lstrip_suffix s) as [sp2 H2]. rewrite H2. apply elem_of_app. by right.
Qed.

Lemma remove_chars_absent (chars : list N) (s : pystr) c :
  c ∉ s → c ∉ foldl (λ name char, py_remove_char char name) s chars.
Proof.
  revert s. induction chars as [|ch chars IH]; intros s Hc; [done|]. simpl.
  apply IH. unfold py_remove_char. rewrite list_elem_of_filter. by intros [_ ?].
Qed.

Lemma remove_chars_removes (chars : list N) (s : pystr) c :
  c ∈ chars → c ∉ foldl (λ name char, py_remove_char char name) s chars.
Proof.
  revert s. induction chars as [|ch chars IH]; intros s Hc; [by apply elem_of_nil in Hc|].
  simpl. apply elem_of_cons in Hc as [->|Hc]; [|by apply IH].
  apply remove_chars_absent. unfold py_remove_char. rewrite list_elem_of_filter.
  by intros [? _].
Qed.

Lemma remove_chars_id (chars : list N) (s : pystr) :
  Forall (λ c, c ∉ s) chars →
  foldl (λ name char, py_remove_char char name) s chars = s.
Proof.
  induction 1 as [|ch chars Hch _ IH]; [done|]. simpl.
  assert (py_remove_char ch s = s) as ->; [|done].
  unfold py_remove_char. clear -Hch. induction s as [|x s IH]; [done|].
  apply not_elem_of_cons in Hch as [Hne Hch]. rewrite filter_cons.
  rewrite decide_True by done. f_equal. by apply IH.
Qed.

Lemma sanitize_filename_no_invalid name :
  Forall (λ c, c ∉ sanitize_filename name) invalid_chars.
Proof.
  apply Forall_forall. intros c Hc Hin. apply py_strip_elem in Hin.
  by apply (remove_chars_removes invalid_chars name c).
Qed.

(** X1.  A sanitized file name holds none of the nine characters of
    [invalid_chars] and neither begins nor ends with whitespace. *)
Theorem sanitize_filename_clean name :
  Forall (λ c, c ∉ sanitize_filename name) invalid_chars
  ∧ match head (sanitize_filename name) with
    | Some c => py_isspace c = false
    | None => True
    end
  ∧ match last (sanitize_filename name) with
    | Some c => py_isspace c = false
    | None => True
    end.
Proof. split; [apply sanitize_filename_no_invalid|apply py_strip_ends]. Qed.

(** X2.  Sanitizing a sanitized name changes nothing. *)
Theorem sanitize_filename_idempotent name :
  sanitize_filename (sanitize_filename name) = sanitize_filename name.
Proof.
  unfold sanitize_filename at 1.
  rewrite remove_chars_id by apply sanitize_filename_no_invalid.
  apply py_strip_id; apply py_strip_ends.
Qed.

Lemma os_path_join_relative (a b : pystr) :
  head b ≠ Some 47%N → os_path_join a b = download_dir a ++ b.
Proof.
  intros Hb. unfold os_path_join, download_dir.
  assert ((if negb (truthy a) || bool_decide (last a = Some 47%N)
           then a ++ b else a ++ [47%N] ++ b)
          = (if negb (truthy a) || bool_decide (last a = Some 47%N)
             then a else a ++ [47%N]) ++ b) as <-.
  { destruct (_ || _); [done|]. by rewrite <- app_assoc. }
  destruct b as [|c b]; [done|].
  destruct (decide (c = 47%N)) as [->|Hc]; [done|]. clear Hb.
  repeat (match goal with
          | |- context [match ?x with _ => _ end] =>
              match type of x with
              | N => destruct x
              | positive => destruct x
              end
          end; try done).
Qed.

Lemma filename_of_titled vid t a :
  truthy t = true → ∃ name, filename_of vid t a = sanitize_filename name.
Proof.
  intros Ht. unfold filename_of. rewrite Ht. simpl.
  destruct (truthy a); by eexists.
Qed.

(** X3.  When the title is not empty, the path the download is expected at
    is [DOWNLOAD_PATH], a separator if it lacks one, the sanitized name and
    [.mp3]; the name has no [/] in it, so the file lies in [DOWNLOAD_PATH]
    itself. *)
Theorem final_path_inside_download_path dl vid t a :
  truthy t = true →
  final_path_of dl vid t a = download_dir dl ++ filename_of vid t a ++ lit ".mp3"
  ∧ 47%N ∉ filename_of vid t a.
Proof.
  intros Ht. destruct (filename_of_titled vid t a Ht) as [name Hname].
  assert (47%N ∉ filename_of vid t a) as Hslash.
  { rewrite Hname.
    pose proof (sanitize_filename_no_invalid name) as Hall.
    rewrite Forall_forall in Hall. apply Hall. unfold invalid_chars.
    do 4 (apply elem_of_cons; right). apply list_elem_of_here. }
  split; [|done]. unfold final_path_of. apply os_path_join_relative.
  destruct (filename_of vid t a) as [|c fn]; [done|]. simpl.
  intros [= ->]. apply Hslash, list_elem_of_here.
Qed.

Lemma final_path_inside_download_path_witness :
  final_path_of sample.DOWNLOAD_PATH (lit "abc") (lit "AC/DC: Live?") (lit " Back <in> Black")
  = download_dir sample.DOWNLOAD_PATH
    ++ filename_of (lit "abc") (lit "AC/DC: Live?") (lit " Back <in> Black") ++ lit ".mp3"
  ∧ 47%N ∉ filename_of (lit "abc") (lit "AC/DC: Live?") (lit " Back <in> Black").
Proof. apply final_path_inside_download_path. reflexivity. Defined.

Lemma final_path_of_untitled_absolute_id dl rest a :
  final_path_of dl (47%N :: rest) [] a = (47%N :: rest) ++ lit ".mp3".
Proof. reflexivity. Qed.

(** X5.  What [download_song] returns and the files it leaves depend on
    yt-dlp alone: two runs that differ only in what mutagen and the cover
    request do end alike. *)
Theorem download_song_ignores_tagging dl env env' vid t a th m :
  ydl_download env = ydl_download env' →
  ydl_files env = ydl_files env' →
  (download_song dl env vid t a th m).1 = (download_song dl env' vid t a th m).1
  ∧ files (download_song dl env vid t a th m).2
    = files (download_song dl env' vid t a th m).2.
Proof.
  intros Hy Hf.
  destruct (download_song_spec dl env vid t a th m) as (m1 & -> & Hf1 & _).
  destruct (download_song_spec dl env' vid t a th m) as (m2 & -> & Hf2 & _).
  simpl. by rewrite Hf1, Hf2, Hy, Hf.
Qed.

(** ** Buttons and what they carry *)

Lemma py_split_head sep (s : pystr) :
  ∃ fields, py_split sep s = prefix_before sep s :: fields.
Proof.
  induction s as [|c s [fields IH]]; [by exists []|]. simpl.
  destruct (c =? sep)%N; [by eexists|]. rewrite IH. by eexists.
Qed.

Lemma prefix_before_id sep (s : pystr) : prefix_before sep s = s ↔ sep ∉ s.
Proof.
  induction s as [|c s IH]; [split; [intros _; apply not_elem_of_nil|done]|].
  simpl. destruct (N.eqb_spec c sep) as [->|Hne].
  - split; [done|]. intros Hn. destruct Hn. apply list_elem_of_here.
  - rewrite not_elem_of_cons. split.
    + intros [= Heq]. split; [done|]. by apply IH.
    + intros [_ Hn]. f_equal. by apply IH.
Qed.

Lemma callback_split_dl (vid : pystr) :
  py_index (py_split 58 (lit "dl:" ++ vid)) 1 = Return (prefix_before 58 vid)
  ∧ py_index (py_split 58 (lit "lyrics:" ++ vid)) 1 = Return (prefix_before 58 vid).
Proof.
  destruct (py_split_head 58 vid) as [fields Hsplit]. split.
  - change (lit "dl:" ++ vid) with (100 :: 108 :: 58 :: vid)%N. simpl.
    by rewrite Hsplit.
  - change (lit "lyrics:" ++ vid)
      with (108 :: 121 :: 114 :: 105 :: 99 :: 115 :: 58 :: vid)%N. simpl.
    by rewrite Hsplit.
Qed.

(** X6.  The handlers read back from the callback data of a download or
    lyrics button the part of the id before its first colon: the id
    itself exactly when it has no colon. *)
Theorem callback_data_round_trip (vid : pystr) :
  py_index (py_split 58 (lit "dl:" ++ vid)) 1 = Return (prefix_before 58 vid)
  ∧ py_index (py_split 58 (lit "lyrics:" ++ vid)) 1 = Return (prefix_before 58 vid)
  ∧ (prefix_before 58 vid = vid ↔ 58%N ∉ vid).
Proof.
  destruct (callback_split_dl vid) as [Hdl Hlyrics].
  split; [done|]. split; [done|]. apply prefix_before_id.
Qed.

(** X7.  The label of a song button is [artist • title] when that has at
    most 55 characters, and its first 52 characters followed by three dots
    otherwise; no label is longer than 55 characters. *)
Theorem button_text_fits song :
  let full := artist song ++ txt.bullet ++ title song in
  song_row song =
    [ mkButton (if len full <=? 55 then full else take 52 full ++ lit "...")
        (lit "dl:" ++ video_id song);
      mkButton txt.memo (lit "lyrics:" ++ video_id song) ]
  ∧ Forall (λ b, len (text b) ≤ 55) (song_row song).
Proof.
  intros full. unfold song_row. fold full.
  rewrite py_slice_prefix by lia. change (Z.to_nat 52) with 52%nat.
  destruct (Z.ltb_spec 55 (len full)) as [Hlong|Hshort];
    destruct (Z.leb_spec (len full) 55) as [Hle|Hgt]; try lia.
  - split; [done|]. repeat constructor; simpl.
    + unfold len in *. rewrite length_app, length_take.
      change (length (lit "...")) with 3%nat. lia.
    + by vm_compute.
  - split; [done|]. repeat constructor; simpl; [done|by vm_compute].
Qed.

Lemma foldl_remember_lookup md (l : list Song) (k : pystr) :
  foldl remember md l !! k =
    match last (filter (λ s, video_id s = k) l) with
    | Some s => Some (title s, artist s, default [] (thumbnail s))
    | None => md !! k
    end.
Proof.
  induction l as [|x l IH] using rev_ind; [done|].
  rewrite foldl_app. simpl. unfold remember at 1.
  rewrite filter_app, filter_cons, filter_nil.
  destruct (decide (video_id x = k)) as [<-|Hne].
  - rewrite lookup_insert_eq. by rewrite last_snoc.
  - rewrite lookup_insert_ne by done. by rewrite app_nil_r.
Qed.

Lemma rendering_records_metadata_aux songs page uid m (k : pystr) :
  let shown := py_slice songs (page * SONGS_PER_PAGE)
                 (page * SONGS_PER_PAGE + SONGS_PER_PAGE) in
  song_metadata (build_results_keyboard songs page uid m).2 !! k =
    match last (filter (λ s, video_id s = k) shown) with
    | Some s => Some (title s, artist s, default [] (thumbnail s))
    | None => song_metadata m !! k
    end.
Proof.
  intros shown. rewrite build_results_keyboard_spec. simpl.
  apply foldl_remember_lookup.
Qed.

(** X8.  Rendering a page records, under each id shown, the title, the
    artist and the thumbnail (or the empty string) of the last song shown
    with that id, and leaves the entries of all other ids alone. *)
Theorem rendering_records_metadata songs page uid m (k : pystr) :
  let shown := py_slice songs (page * SONGS_PER_PAGE)
                 (page * SONGS_PER_PAGE + SONGS_PER_PAGE) in
  song_metadata (build_results_keyboard songs page uid m).2 !! k =
    match last (filter (λ s, video_id s = k) shown) with
    | Some s => Some (title s, artist s, default [] (thumbnail s))
    | None => song_metadata m !! k
    end.
Proof. apply rendering_records_metadata_aux. Qed.

(** X9.  After a page was rendered, a press on the download button of a
    song shown on it (the last one with its id, the id free of colons and
    not in the audio cache) creates a task with the id, title, artist and
    thumbnail of that song, and leaves the store alone. *)
Theorem rendered_button_starts_download songs page uid m song penv :
  let shown := py_slice songs (page * SONGS_PER_PAGE)
                 (page * SONGS_PER_PAGE + SONGS_PER_PAGE) in
  let m' := (build_results_keyboard songs page uid m).2 in
  last (filter (λ s, video_id s = video_id song) shown) = Some song →
  58%N ∉ video_id song →
  audio_cache m !! video_id song = None →
  download_handler penv (lit "dl:" ++ video_id song) m'
  = (Return (Some (mkJob (video_id song) (title song) (artist song)
                     (default [] (thumbnail song)) Created)), m').
Proof.
  intros shown m' Hlast Hcolon Hcache.
  pose proof (rendering_records_metadata_aux songs page uid m (video_id song)) as Hmd.
  cbv zeta in Hmd. fold shown in Hmd. fold m' in Hmd. rewrite Hlast in Hmd.
  assert (audio_cache m' = audio_cache m) as Hc.
  { unfold m'. rewrite build_results_keyboard_spec. done. }
  unfold download_handler, bind, call, gets, ret.
  destruct (callback_split_dl (video_id song)) as [Hsplit _].
  rewrite Hsplit. apply prefix_before_id in Hcolon. rewrite Hcolon.
  rewrite Hc, Hcache. unfold metadata_get. by rewrite Hmd.
Qed.

(** ** The queue *)
Import bot_pages.

Lemma queue_handler_spec sent m :
  let n := len (download_queue m) in
  queue_handler sent m =
    (sent, set_outbox (λ b, b ++ [MessageAnswer
       (status_text (Z.min n MAX_CONCURRENT_DOWNLOADS)
          (Z.max 0 (n - MAX_CONCURRENT_DOWNLOADS)))]) m).
Proof. done. Qed.

(** X10.  [/queue] answers with two counts that add up to the length of
    the queue: the first is at most [MAX_CONCURRENT_DOWNLOADS], and the
    second is positive only when the first has reached it.  The store is
    not touched. *)
Theorem queue_status_counts sent m :
  ∃ active waiting,
    queue_handler sent m
    = (sent, set_outbox (λ b, b ++ [MessageAnswer (status_text active waiting)]) m)
    ∧ active + waiting = len (download_queue m)
    ∧ 0 ≤ active ≤ MAX_CONCURRENT_DOWNLOADS
    ∧ 0 ≤ waiting
    ∧ (waiting = 0 ∨ active = MAX_CONCURRENT_DOWNLOADS).
Proof.
  eexists _, _. split; [apply queue_handler_spec|].
  unfold MAX_CONCURRENT_DOWNLOADS, len. lia.
Qed.

(** X11.  The number a request is given in its position notice is the
    waiting count that [/queue] shows right after: zero when the notice
    says that the download starts. *)
Theorem queue_status_agrees_with_notice vid sent m :
  let m1 := (process_download_begin vid m).2 in
  ∃ active waiting,
    last (outbox m1)
    = Some (CallbackAnswer (if waiting =? 0 then txt.downloading
                            else txt.queued ++ py_str_int waiting))
    ∧ last (outbox (queue_handler sent m1).2)
      = Some (MessageAnswer (status_text active waiting)).
Proof.
  intros m1. unfold m1. rewrite process_download_begin_spec, queue_handler_spec.
  cbn [snd outbox set_outbox download_queue set_download_queue].
  rewrite !last_snoc.
  set (k := len (download_queue m) + 1).
  assert (len (download_queue m ++ [vid]) = k) as ->.
  { unfold k, len. rewrite length_app. simpl. lia. }
  eexists _, _. split; [|reflexivity].
  do 2 f_equal. unfold MAX_CONCURRENT_DOWNLOADS.
  destruct (Z.ltb_spec 3 k), (Z.eqb_spec (Z.max 0 (k - 3)) 0); try lia; [|done].
  do 2 f_equal. lia.
Qed.

(** *** Ids of unfinished downloads stay in the queue *)

Lemma pending_cons j js :
  pending (j :: js)
  = (if in_queue (job_stage j) then [job_video_id j] else []) ++ pending js.
Proof.
  unfold pending. rewrite filter_cons.
  destruct (in_queue (job_stage j)) eqn:Hq.
  - by rewrite decide_True.
  - by rewrite decide_False.
Qed.

Lemma pending_app js js' : pending (js ++ js') = pending js ++ pending js'.
Proof. unfold pending. by rewrite filter_app, fmap_app. Qed.

Lemma pending_split js i j :
  js !! i = Some j →
  ∃ R, ∀ st, pending (<[i:=at_stage st j]> js)
             ≡ₚ (if in_queue st then [job_video_id j] else []) ++ R.
Proof.
  revert i. induction js as [|x js IH]; intros i Hi; [done|].
  destruct i as [|i]; simpl in *.
  - injection Hi as ->. exists (pending js). intros st. by rewrite pending_cons.
  - destruct (IH i Hi) as [R HR].
    exists ((if in_queue (job_stage x) then [job_video_id x] else []) ++ R).
    intros st. rewrite pending_cons, HR. apply Permutation_app_swap_app.
Qed.

Lemma dequeued_perm vid (q : list pystr) : vid ∈ q → q ≡ₚ vid :: dequeued vid q.
Proof.
  unfold dequeued. induction q as [|y q IH]; [by intros ?%elem_of_nil|].
  intros Hin. simpl. case_bool_decide as Hy; [by subst|].
  apply elem_of_cons in Hin as [->|Hin]; [done|]. specialize (IH Hin).
  destruct (py_list_remove_elem vid q Hin) as (q' & Hq & _). rewrite Hq in *.
  rewrite IH at 1. apply Permutation_swap.
Qed.

Lemma step_keeps_queued dl j w m st' m' (R : list pystr) :
  process_download_step dl j w m = Some (st', m') →
  (if in_queue (job_stage j) then [job_video_id j] else []) ++ R ⊆+ download_queue m →
  (if in_queue st' then [job_video_id j] else []) ++ R ⊆+ download_queue m'.
Proof.
  unfold process_download_step.
  destruct (job_stage j) as [| | | | |filepath thumb_path|r] eqn:Hst;
    destruct w as [|r'| |env tenv|sent renv]; try done; simpl.
  - rewrite process_download_begin_spec. intros [= <- <-] HR. simpl.
    rewrite <- Permutation_cons_append. by apply submseteq_skip.
  - destruct r' as [[]|e]; intros [= <- <-] HR; simpl; [done|].
    etrans; [|exact HR]. by apply submseteq_cons.
  - unfold acquire. destruct (download_semaphore m); [done|]. by intros [= <- <-].
  - destruct (process_download_fetch_spec dl env tenv (job_video_id j) (job_title j)
                (job_artist j) (job_thumbnail j) m) as (st & m1 & Heq & Hq & _ & _ & Hd).
    unfold inside. rewrite Heq. intros [= <- <-] HR. rewrite Hq.
    assert (in_queue st = false) as ->.
    { destruct (if raised _ then _ else _);
        [destruct Hd as (? & -> & _)|destruct Hd as (-> & _)]; done. }
    simpl. assert (job_video_id j ∈ download_queue m) as Hin.
    { eapply elem_of_submseteq; [|exact HR]. apply list_elem_of_here. }
    rewrite (dequeued_perm _ _ Hin) in HR.
    by apply (submseteq_app_inv_l _ _ [job_video_id j]).
  - unfold leave, try_finally, call, release, modify. simpl. by intros [= <- <-].
  - destruct (process_download_deliver_spec sent renv (job_video_id j) filepath thumb_path m)
      as (m1 & Heq & _ & Hq & _).
    unfold leave, try_finally. rewrite Heq. unfold release, modify.
    intros [= <- <-] HR. simpl. by rewrite Hq.
Qed.

Lemma download_handler_keeps_queue env data :
  keeps download_queue (download_handler env data).
Proof. unfold download_handler. keeps_auto. Qed.

Lemma search_handler_keeps_queue env uid text :
  keeps download_queue (search_handler env uid text).
Proof. unfold search_handler. keeps_auto. Qed.

Lemma lyrics_handler_keeps_queue env data :
  keeps download_queue (lyrics_handler env data).
Proof. unfold lyrics_handler. keeps_auto. Qed.

Lemma handle_keeps_queued dl w e :
  pending (jobs w) ⊆+ download_queue (store w) →
  pending (jobs (handle dl w e)) ⊆+ download_queue (store (handle dl w e)).
Proof.
  intros Hinv. destruct e as [env data|env data|env uid text|i wk]; simpl.
  - pose proof (download_handler_keeps_queue env data (store w)) as Hq.
    destruct (download_handler env data (store w)) as [[[j|]|e] m'] eqn:Hh;
      simpl in *; rewrite Hq; try done.
    apply download_handler_job in Hh.
    rewrite pending_app, pending_cons, Hh. simpl. by rewrite app_nil_r.
  - by rewrite lyrics_handler_keeps_queue.
  - by rewrite search_handler_keeps_queue.
  - destruct (jobs w !! i) as [j|] eqn:Hj; [|done].
    destruct (process_download_step dl j wk (store w)) as [[st' m']|] eqn:Hstep; [|done].
    simpl. destruct (pending_split (jobs w) i j Hj) as [R HR].
    rewrite (HR st').
    apply (step_keeps_queued dl j wk (store w) st' m' R Hstep).
    rewrite <- (HR (job_stage j)).
    assert (at_stage (job_stage j) j = j) as -> by by destruct j.
    by rewrite list_insert_id.
Qed.

(** X12.  However the events are interleaved, the ids of the tasks between
    their append and the return of [download_song] are all in the queue,
    each as often as there are such tasks: the queue is never shorter than
    the number of downloads still to come. *)
Theorem unfinished_downloads_are_queued dl fs events :
  let w := run dl (initial fs) events in
  pending (jobs w) ⊆+ download_queue (store w)
  ∧ (length (pending (jobs w)) ≤ length (download_queue (store w)))%nat.
Proof.
  assert (∀ w, pending (jobs w) ⊆+ download_queue (store w) →
               pending (jobs (run dl w events)) ⊆+ download_queue (store (run dl w events)))
    as Hrun.
  { unfold run. induction events as [|e events IH]; intros w Hw; [done|].
    simpl. apply IH. by apply handle_keeps_queued. }
  intros w. assert (pending (jobs w) ⊆+ download_queue (store w)) as H.
  { apply Hrun. done. }
  split; [done|]. by apply submseteq_length.
Qed.

(** ** What a run leaves in the caches *)

Lemma process_download_cache dl env vid t a th m r m' :
  process_download dl env vid t a th m = Some (r, m') →
  audio_cache m' =
    match position_notice env,
          (if raised (ydl_download (download env)) then None
           else if bool_decide (final_path_of dl vid t a ∈ ydl_files (download env))
                then Some (final_path_of dl vid t a) else None),
          upload env with
    | Return _, Some _, Return (Some file_id) => <[vid := file_id]> (audio_cache m)
    | _, _, _ => audio_cache m
    end.
Proof.
  intros Hrun. pose proof (process_download_run dl env vid t a th m) as H.
  cbv zeta in H. destruct (position_notice env) as [[]|e].
  - destruct (download_semaphore m); [congruence|].
    destruct H as (r0 & m0 & Heq & _ & _ & Hd). rewrite Heq in Hrun.
    injection Hrun as <- <-.
    destruct (if raised _ then _ else _) as [filepath|].
    + destruct Hd as (thp & _ & _ & Hc & _). rewrite Hc.
      by destruct (upload env) as [[fid|]|e].
    + by destruct Hd as (_ & _ & -> & _).
  - destruct H as (m0 & Heq & _ & _ & _ & Hc & _). rewrite Heq in Hrun.
    by injection Hrun as <- <-.
Qed.

(** X14.  A run of [process_download] writes the audio cache in one case
    only: the notice went through, the download gave a file and the upload
    returned a message with an audio; the entry is then the file id under
    the id of the track.  In every other case the cache is as before. *)
Theorem audio_cache_written_on_delivery_only dl env vid t a th m r m' :
  process_download dl env vid t a th m = Some (r, m') →
  audio_cache m' =
    match position_notice env,
          (if raised (ydl_download (download env)) then None
           else if bool_decide (final_path_of dl vid t a ∈ ydl_files (download env))
                then Some (final_path_of dl vid t a) else None),
          upload env with
    | Return _, Some _, Return (Some file_id) => <[vid := file_id]> (audio_cache m)
    | _, _, _ => audio_cache m
    end.
Proof. apply process_download_cache. Qed.

(** X15.  After a run that delivered the track, a press on the download
    button of the same id (free of colons) sends the cached file id first
    and creates no task. *)
Theorem delivered_track_is_served_from_cache dl env penv vid t a th m r m' file_id :
  process_download dl env vid t a th m = Some (r, m') →
  position_notice env = Return tt →
  ydl_download (download env) = Return tt →
  final_path_of dl vid t a ∈ ydl_files (download env) →
  upload env = Return (Some file_id) →
  58%N ∉ vid →
  ∃ r' rest,
    download_handler penv (lit "dl:" ++ vid) m'
    = (r', set_outbox (λ b, b ++ AnswerAudioCached file_id :: rest) m')
    ∧ ∀ j, r' ≠ Return (Some j).
Proof.
  intros Hrun Hn Hy Hf Hu Hcolon.
  apply (download_handler_cached penv _ vid file_id).
  - destruct (callback_split_dl vid) as [-> _]. f_equal. by apply prefix_before_id.
  - rewrite (process_download_cache _ _ _ _ _ _ _ _ _ Hrun), Hn, Hy, Hu. simpl.
    rewrite bool_decide_eq_true_2 by done. apply lookup_insert_eq.
Qed.


(** X17.  When the download fails (yt-dlp raised or left no file at the
    expected path), the run sends the position notice and the failure
    message and nothing else, returns what the failure message returned,
    and leaves audio cache, queue length and semaphore as they were. *)
Theorem failed_download_is_reported_once dl env vid t a th m r m' :
  process_download dl env vid t a th m = Some (r, m') →
  position_notice env = Return tt →
  (if raised (ydl_download (download env)) then true
   else negb (bool_decide (final_path_of dl vid t a ∈ ydl_files (download env)))) = true →
  r = failure_notice env
  ∧ (∃ notice, outbox m' = outbox m ++ [CallbackAnswer notice;
                                         MessageAnswer txt.download_failed])
  ∧ audio_cache m' = audio_cache m
  ∧ length (download_queue m') = length (download_queue m)
  ∧ download_semaphore m' = download_semaphore m.
Proof.
  intros Hrun Hn Hfail.
  pose proof (process_download_run dl env vid t a th m) as H.
  cbv zeta in H. rewrite Hn in H.
  destruct (download_semaphore m) eqn:Hs; [congruence|].
  destruct H as (r0 & m0 & Heq & Hq & Hsem & Hd). rewrite Heq in Hrun.
  injection Hrun as <- <-.
  assert ((if raised (ydl_download (download env)) then None
           else if bool_decide (final_path_of dl vid t a ∈ ydl_files (download env))
                then Some (final_path_of dl vid t a) else None) = None) as Hnone.
  { destruct (raised _); [done|]. by destruct (bool_decide _). }
  rewrite Hnone in Hd. destruct Hd as (-> & _ & Hc & Ho).
  split; [done|]. split; [by eexists|]. split; [done|].
  by rewrite Hq, dequeued_own_entry.
Qed.

(** ** Searching *)
Import music_search.

Lemma py_lstrip_blank (s : pystr) :
  Forall (λ c, py_isspace c = true) s → py_lstrip s = [].
Proof. induction 1 as [|c s Hc _ IH]; [done|]. simpl. by rewrite Hc. Qed.

(** X19.  A message of whitespace only is dropped: nothing is sent and the
    store is as before. *)
Theorem blank_message_is_ignored env uid (message_text : pystr) m :
  Forall (λ c, py_isspace c = true) message_text →
  search_handler env uid message_text m = (Return tt, m).
Proof.
  intros Hblank. unfold search_handler, py_strip.
  by rewrite (py_lstrip_blank _ Hblank).
Qed.

Lemma blank_message_is_ignored_witness :
  search_handler (mkSearchEnv (Return tt) (Return tt) (Return (sample.songs 2)) (Return tt))
    42 [32; 9; 10; 160; 8195]%N sample.boot
  = (Return tt, sample.boot).
Proof.
  apply blank_message_is_ignored. repeat constructor.
Defined.

Lemma search_loop_spec results songs :
  search_loop results songs
  = songs ++ (song_of_item <$> filter (λ i, resultType i = Some (lit "song")) results).
Proof.
  revert songs. induction results as [|item results IH]; intros songs; simpl.
  - by rewrite app_nil_r.
  - rewrite filter_cons. case_bool_decide as Hkind.
    + rewrite decide_False by done. apply IH.
    + rewrite decide_True by done.
      rewrite IH. by rewrite <- app_assoc.
Qed.

(** X20.  [search_songs] returns, in the order of the catalogue, one song
    for each entry whose [resultType] is [song] and nothing for the others;
    an exception of the catalogue search is passed on. *)
Theorem search_songs_keeps_songs_in_order ytmusic_search query limit :
  search_songs ytmusic_search query limit =
    match ytmusic_search query limit with
    | Return results =>
        Return (song_of_item <$> filter (λ i, resultType i = Some (lit "song")) results)
    | Raise e => Raise e
    end.
Proof.
  unfold search_songs. destruct (ytmusic_search query limit); [|done].
  by rewrite search_loop_spec.
Qed.

(** X21.  When the catalogue returns entries none of which is a song, the
    search ends with the nothing-found text and leaves the search cache
    and the metadata as they were. *)
Theorem search_without_songs_finds_nothing ytmusic_search results env uid message_text m :
  truthy (py_strip message_text) = true →
  status_sent env = Return tt →
  ytmusic_search (py_strip message_text) TOTAL_SEARCH_RESULTS = Return results →
  found env = search_songs ytmusic_search (py_strip message_text) TOTAL_SEARCH_RESULTS →
  Forall (λ i, resultType i ≠ Some (lit "song")) results →
  let m' := (search_handler env uid message_text m).2 in
  search_cache m' = search_cache m
  ∧ song_metadata m' = song_metadata m
  ∧ last (outbox m') = Some (EditText txt.nothing_found None).
Proof.
  intros Hq Hs Hy Hf Hnone m'.
  assert (found env = Return []) as Hfound.
  { rewrite Hf. unfold search_songs. rewrite Hy, search_loop_spec. simpl. do 2 f_equal.
    clear -Hnone. induction Hnone as [|i l Hi _ IH]; [done|].
    rewrite filter_cons. by rewrite decide_False. }
  subst m'. unfold search_handler. rewrite Hq. cbn [negb].
  unfold bind, try_except, send, modify, call, ret. rewrite Hs, Hfound.
  destruct (deleted env) as [[]|e]; simpl; by rewrite last_snoc.
Qed.

Lemma search_without_songs_finds_nothing_witness :
  let results := [sample_more.item "video" 1; sample_more.item "album" 2] in
  let env := mkSearchEnv (Return tt) (Return tt)
               (search_songs (sample_more.ytmusic results) (lit "query")
                  TOTAL_SEARCH_RESULTS) (Return tt) in
  let m' := (search_handler env 42 (lit "query") sample_more.searched).2 in
  search_cache m' = search_cache sample_more.searched
  ∧ song_metadata m' = song_metadata sample_more.searched
  ∧ last (outbox m') = Some (EditText txt.nothing_found None).
Proof.
  intros results env.
  apply (search_without_songs_finds_nothing (sample_more.ytmusic results) results
           env 42 (lit "query") sample_more.searched).
  - reflexivity.
  - reflexivity.
  - reflexivity.
  - reflexivity.
  - repeat constructor; discriminate.
Defined.

(** ** Lyrics *)

(** X22.  When a request of [get_lyrics] to the catalogue raises, the
    lyrics handler does not fail: it returns what sending returned, after
    the loading notice and one message, the header of the song followed by
    the not-found text. *)
Theorem lyrics_lookup_failure_is_not_found src env data vid m :
  py_index (py_split 58 data) 1 = Return vid →
  lyrics_acked env = Return tt →
  lyrics_found env = (get_lyrics src).1 →
  raised (watch_playlist_lyrics src) || raised (lyrics_data src) = true →
  let '(title, artist, _) := metadata_get (song_metadata m) vid in
  lyrics_handler env data m
  = (lyrics_sent env,
     set_outbox (λ b, b ++ [CallbackAnswer txt.loading_lyrics;
                            MessageAnswer (txt.memo ++ lit " <b>" ++ artist ++ lit " - "
                                           ++ title ++ lit "</b>" ++ txt.newline
                                           ++ txt.newline ++ txt.lyrics_not_found)]) m).
Proof.
  intros Hvid Hack Hfound Hraised.
  assert (lyrics_found env = None) as Hnone.
  { rewrite Hfound. unfold get_lyrics.
    destruct (watch_playlist_lyrics src) as [[[|c id]|]|e]; try done.
    by destruct (lyrics_data src) as [[d|]|e]. }
  destruct (metadata_get (song_metadata m) vid) as [[title artist] th] eqn:Hmd.
  unfold lyrics_handler, bind, call, gets, send, modify.
  rewrite Hvid. simpl. rewrite Hack. simpl. rewrite Hmd, Hnone. simpl.
  destruct (lyrics_sent env); f_equal; destruct m; unfold set_outbox; simpl;
    by rewrite <- app_assoc.
Qed.

Lemma lyrics_lookup_failure_is_not_found_witness :
  let src := mkLyricsSource (Return (Some (lit "browse-id"))) (Raise (OtherError 7)) in
  let env := mkLyricsEnv (Return tt) (get_lyrics src).1 (Return tt) in
  let '(title, artist, _) := metadata_get (song_metadata sample_more.searched) (lit "vid3") in
  lyrics_handler env (lit "lyrics:vid3") sample_more.searched
  = (lyrics_sent env,
     set_outbox (λ b, b ++ [CallbackAnswer txt.loading_lyrics;
                            MessageAnswer (txt.memo ++ lit " <b>" ++ artist ++ lit " - "
                                           ++ title ++ lit "</b>" ++ txt.newline
                                           ++ txt.newline ++ txt.lyrics_not_found)])
       sample_more.searched).
Proof.
  intros src env.
  apply (lyrics_lookup_failure_is_not_found src env (lit "lyrics:vid3") (lit "vid3")
           sample_more.searched); reflexivity.
Defined.

(** The user sees the names of the song, then that no text was found. *)
Example lyrics_lookup_failure_message :
  let src := mkLyricsSource (Raise (OtherError 7)) (Return None) in
  let env := mkLyricsEnv (Return tt) (get_lyrics src).1 (Return tt) in
  last (outbox (lyrics_handler env (lit "lyrics:vid3") sample_more.searched).2)
  = Some (MessageAnswer (txt.memo ++ lit " <b>Artist - Title 3</b>" ++ txt.newline
                         ++ txt.newline ++ txt.lyrics_not_found)).
Proof. vm_compute. done. Qed.

(** ** Turning pages *)

Lemma string_of_uint_no_colon d : 58%N ∉ lit (NilEmpty.string_of_uint d).
Proof.
  induction d; simpl; [apply not_elem_of_nil|..];
    (apply not_elem_of_cons; split; [done|exact IHd]).
Qed.

Lemma py_str_int_no_colon n : 58%N ∉ py_str_int n.
Proof.
  unfold py_str_int, NilZero.string_of_int.
  assert (∀ d, 58%N ∉ lit (NilZero.string_of_uint d)) as Hu.
  { intros d. unfold NilZero.string_of_uint.
    destruct d; try apply string_of_uint_no_colon.
    unfold lit. simpl. apply not_elem_of_cons. split; [done|apply not_elem_of_nil]. }
  destruct (Z.to_int n) as [d|d]; [apply Hu|].
  change (lit (String "-" (NilZero.string_of_uint d)))
    with (45%N :: lit (NilZero.string_of_uint d)).
  apply not_elem_of_cons. split; [done|apply Hu].
Qed.

Lemma page_data_field n :
  py_index (py_split 58 (lit "page:" ++ py_str_int n)) 1 = Return (py_str_int n).
Proof.
  destruct (py_split_head 58 (py_str_int n)) as [fields Hsplit].
  change (lit "page:" ++ py_str_int n)
    with (112 :: 97 :: 103 :: 101 :: 58 :: py_str_int n)%N.
  simpl. rewrite Hsplit. unfold py_index. simpl. f_equal.
  apply prefix_before_id, py_str_int_no_colon.
Qed.

Lemma arrow_data_on_keyboard label songs page uid m keyboard row b :
  label = txt.back ∨ label = txt.forward →
  (build_results_keyboard songs page uid m).1 = Return keyboard →
  row ∈ keyboard → b ∈ row → text b = label →
  callback_data b
  = lit "page:" ++ py_str_int (if bool_decide (label = txt.back) then page - 1 else page + 1).
Proof.
  intros Hlabel. rewrite build_results_keyboard_spec. cbv zeta. simpl.
  intros [= <-] Hrow Hb Ht.
  apply elem_of_app in Hrow as [Hrow|Hrow].
  { by destruct (arrow_not_in_song_rows label _ row b Hlabel Hrow Hb). }
  apply list_elem_of_singleton in Hrow as ->.
  apply nav_row_elem in Hb as [[_ ->]|[->|[_ ->]]].
  - simpl in Ht. subst label. by rewrite bool_decide_eq_true_2.
  - by destruct (indicator_is_no_arrow label _ _ Hlabel Ht).
  - simpl in Ht. subst label. by rewrite bool_decide_eq_false_2.
Qed.

(** X24.  A press on an arrow of the keyboard of page [p] renders, from the
    results cached for the user, the page [p - 1] for the back arrow and
    [p + 1] for the forward arrow, provided [int] reads that number back
    from what [str] printed and the two calls to the transport return. *)
Theorem arrow_button_turns_the_page py_int env uid query songs page m keyboard row b :
  let target := if bool_decide (text b = txt.back) then page - 1 else page + 1 in
  (build_results_keyboard songs page uid m).1 = Return keyboard →
  row ∈ keyboard → b ∈ row →
  text b = txt.back ∨ text b = txt.forward →
  search_cache m !! uid = Some (query, songs) →
  py_int (py_str_int target) = Return target →
  markup_edited env = Return tt →
  page_acked env = Return tt →
  pagination_handler py_int env uid (callback_data b) m
  = (match (build_results_keyboard songs target uid m).1 with
     | Return keyboard' => Return (Some keyboard')
     | Raise e => Raise e
     end,
     (build_results_keyboard songs target uid m).2).
Proof.
  intros target Hkb Hrow Hb Hlabel Hcache Hint Hedit Hack.
  rewrite (arrow_data_on_keyboard (text b) songs page uid m keyboard row b
             Hlabel Hkb Hrow Hb eq_refl).
  fold target. unfold pagination_handler.
  unfold bind at 1. unfold call at 1. rewrite page_data_field.
  unfold bind at 1. unfold call at 1. rewrite Hint.
  unfold bind at 1. unfold gets at 1. cbv beta iota. rewrite Hcache.
  unfold bind at 1. rewrite build_results_keyboard_spec. cbv zeta. cbv beta iota.
  unfold bind, call, ret. by rewrite Hedit, Hack.
Qed.

(** X25.  A press on a page button by a user with no cached search is
    answered with the search-expired notice; nothing else changes. *)
Theorem stale_page_press_is_answered py_int env uid data field page m :
  py_index (py_split 58 data) 1 = Return field →
  py_int field = Return page →
  search_cache m !! uid = None →
  pagination_handler py_int env uid data m
  = (match stale_acked env with Return _ => Return None | Raise e => Raise e end,
     set_outbox (λ b, b ++ [CallbackAnswer search_expired]) m).
Proof.
  intros Hfield Hint Hcache. unfold pagination_handler, bind, call, gets, send, modify, ret.
  rewrite Hfield, Hint, Hcache. by destruct (stale_acked env).
Qed.

(** X26.  An exception of the catalogue search leaves [search_handler] as
    it is: the searching status is the last thing sent and the store is
    otherwise as before. *)
Theorem search_failure_escapes env uid message_text m e :
  truthy (py_strip message_text) = true →
  status_sent env = Return tt →
  found env = Raise e →
  ∃ sent, search_handler env uid message_text m
          = (Raise e, set_outbox (λ b, b ++ sent) m)
    ∧ last sent = Some (MessageAnswer txt.searching).
Proof.
  intros Hq Hs Hf. unfold search_handler. rewrite Hq. cbn [negb].
  unfold bind, try_except, send, modify, call, ret. rewrite Hs, Hf.
  exists [MessageDelete; MessageAnswer txt.searching].
  split; [|done].
  destruct (deleted env) as [[]|e']; simpl; f_equal; destruct m; unfold set_outbox; simpl;
    by rewrite <- app_assoc.
Qed.

(** X4.  A press on a download button whose id starts with [/], has no
    colon and is in neither the audio cache nor the metadata creates a
    task with empty title and artist; for such a task the file name is the id as it is and
    [os.path.join] drops [DOWNLOAD_PATH]: the expected path is the id
    followed by [.mp3]. *)
Theorem unknown_absolute_id_leaves_download_path dl penv (rest : pystr) m :
  let vid := 47%N :: rest in
  58%N ∉ rest →
  audio_cache m !! vid = None →
  song_metadata m !! vid = None →
  download_handler penv (lit "dl:" ++ vid) m
  = (Return (Some (mkJob vid [] [] [] Created)), m)
  ∧ final_path_of dl vid [] [] = vid ++ lit ".mp3".
Proof.
  intros vid Hcolon Hcache Hmd. split; [|apply final_path_of_untitled_absolute_id].
  unfold download_handler, bind, call, gets, ret.
  destruct (callback_split_dl vid) as [-> _].
  assert (prefix_before 58 vid = vid) as ->.
  { apply prefix_before_id. apply not_elem_of_cons. by split. }
  rewrite Hcache. unfold metadata_get. by rewrite Hmd.
Qed.

(** ** Instances *)

Lemma download_song_ignores_tagging_witness :
  let env := sample.download_ok (lit "abc") in
  let env' := mkDownloadEnv (Return tt) (ydl_files env) (Raise ID3NoHeaderError)
                (Raise (OtherError 1)) (Raise (OtherError 2)) (Raise (OtherError 3)) in
  (download_song sample.DOWNLOAD_PATH env (lit "abc") [] [] (lit "http://c") sample.boot).1
  = (download_song sample.DOWNLOAD_PATH env' (lit "abc") [] [] (lit "http://c") sample.boot).1
  ∧ files (download_song sample.DOWNLOAD_PATH env (lit "abc") [] [] (lit "http://c")
             sample.boot).2
    = files (download_song sample.DOWNLOAD_PATH env' (lit "abc") [] [] (lit "http://c")
               sample.boot).2.
Proof.
  intros env env'. apply download_song_ignores_tagging; reflexivity.
Defined.

Lemma rendered_button_starts_download_witness :
  let song := sample.song 6 in
  let m' := (build_results_keyboard (sample.songs 7) 1 42 sample.boot).2 in
  download_handler sample.press (lit "dl:" ++ video_id song) m'
  = (Return (Some (mkJob (video_id song) (title song) (artist song)
                     (default [] (thumbnail song)) Created)), m').
Proof.
  intros song.
  apply (rendered_button_starts_download (sample.songs 7) 1 42 sample.boot song sample.press).
  - vm_compute. reflexivity.
  - refine (bool_decide_unpack _ _); vm_compute; exact I.
  - vm_compute. reflexivity.
Defined.

Lemma unknown_absolute_id_leaves_download_path_witness :
  download_handler sample.press (lit "dl:/srv/other") sample.boot
  = (Return (Some (mkJob (lit "/srv/other") [] [] [] Created)), sample.boot)
  ∧ final_path_of sample.DOWNLOAD_PATH (lit "/srv/other") [] [] = lit "/srv/other.mp3".
Proof.
  apply (unknown_absolute_id_leaves_download_path sample.DOWNLOAD_PATH sample.press
           (lit "srv/other") sample.boot).
  - refine (bool_decide_unpack _ _); vm_compute; exact I.
  - vm_compute. reflexivity.
  - vm_compute. reflexivity.
Defined.

(** X13.  A request whose position notice went through leaves the queue
    as long as it found it and the semaphore at the value it found,
    however the download and the upload end. *)
Theorem request_gives_back_what_it_took dl env vid t a th m r m' :
  position_notice env = Return tt →
  process_download dl env vid t a th m = Some (r, m') →
  length (download_queue m') = length (download_queue m)
  ∧ download_semaphore m' = download_semaphore m.
Proof. apply process_download_restores_baseline. Qed.

Lemma request_gives_back_what_it_took_witness :
  ∃ r m',
    process_download sample.DOWNLOAD_PATH (sample.pipeline_ok (lit "abc"))
      (lit "abc") [] [] [] sample.boot = Some (r, m')
    ∧ length (download_queue m') = length (download_queue sample.boot)
    ∧ download_semaphore m' = download_semaphore sample.boot.
Proof.
  eexists _, _. split; [vm_compute; reflexivity|].
  eapply (request_gives_back_what_it_took sample.DOWNLOAD_PATH
            (sample.pipeline_ok (lit "abc")) (lit "abc") [] [] [] sample.boot).
  - reflexivity.
  - vm_compute. reflexivity.
Defined.

Lemma audio_cache_written_on_delivery_only_witness :
  ∃ r m',
    process_download sample.DOWNLOAD_PATH (sample.pipeline_ok (lit "abc"))
      (lit "abc") [] [] [] sample.boot = Some (r, m')
    ∧ audio_cache m' = <[lit "abc" := lit "file-id"]> (audio_cache sample.boot).
Proof.
  eexists _, _. split; [vm_compute; reflexivity|].
  refine (audio_cache_written_on_delivery_only sample.DOWNLOAD_PATH
            (sample.pipeline_ok (lit "abc")) (lit "abc") [] [] [] sample.boot _ _ _).
  vm_compute. reflexivity.
Defined.

Lemma delivered_track_is_served_from_cache_witness :
  ∃ r m',
    process_download sample.DOWNLOAD_PATH (sample.pipeline_ok (lit "abc"))
      (lit "abc") [] [] [] sample.boot = Some (r, m')
    ∧ ∃ r' rest,
        download_handler sample.press (lit "dl:" ++ lit "abc") m'
        = (r', set_outbox (λ b, b ++ AnswerAudioCached (lit "file-id") :: rest) m')
        ∧ ∀ j, r' ≠ Return (Some j).
Proof.
  eexists _, _. split; [vm_compute; reflexivity|].
  eapply (delivered_track_is_served_from_cache sample.DOWNLOAD_PATH
            (sample.pipeline_ok (lit "abc")) sample.press (lit "abc") [] [] []
            sample.boot).
  - vm_compute. reflexivity.
  - reflexivity.
  - reflexivity.
  - refine (bool_decide_unpack _ _); vm_compute; exact I.
  - reflexivity.
  - refine (bool_decide_unpack _ _); vm_compute; exact I.
Defined.


Lemma failed_download_is_reported_once_witness :
  let failing := mkPipelineEnv (Return tt)
                   (mkDownloadEnv (Raise (OtherError 4)) ∅ (Return tt) (Return tt)
                      (Raise (OtherError 5)) (Return tt))
                   sample.cover_ok (Return tt) (Return None) sample.removal_ok in
  ∃ r m',
    process_download sample.DOWNLOAD_PATH failing (lit "abc") [] [] [] sample.boot
    = Some (r, m')
    ∧ r = Return tt
    ∧ (∃ notice, outbox m' = outbox sample.boot
                             ++ [CallbackAnswer notice; MessageAnswer txt.download_failed])
    ∧ audio_cache m' = audio_cache sample.boot
    ∧ length (download_queue m') = length (download_queue sample.boot)
    ∧ download_semaphore m' = download_semaphore sample.boot.
Proof.
  intros failing. eexists _, _. split; [vm_compute; reflexivity|].
  eapply (failed_download_is_reported_once sample.DOWNLOAD_PATH failing (lit "abc")
            [] [] [] sample.boot).
  - vm_compute. reflexivity.
  - reflexivity.
  - reflexivity.
Defined.

(** X18.  Among other tasks too, the wake-up that ends a delivering task
    finishes it with the outcome of the upload, whatever [os.remove] does.
    The audio file and the cover are off the disk afterwards if
    [os.remove] returned on them; a file on which it raised is still
    there, and no other file is removed. *)
Theorem finished_delivery_cleans_up dl j sent renv m st' m' filepath thumb_path :
  job_stage j = Delivering filepath thumb_path →
  process_download_step dl j (Uploaded sent renv) m = Some (st', m') →
  st' = Finished (match sent with Return _ => Return tt | Raise e => Raise e end)
  ∧ (audio_removed renv = Return tt → filepath ∉ files m')
  ∧ (∀ p, thumb_path = Some p → truthy p = true →
       thumb_removed renv = Return tt → p ∉ files m')
  ∧ (∀ q, q ∈ files m' → q ∈ files m)
  ∧ (∀ q, q ∈ files m → q ∉ files m' →
       (q = filepath ∧ audio_removed renv = Return tt)
       ∨ (thumb_path = Some q ∧ thumb_removed renv = Return tt)).
Proof.
  intros Hst Hstep.
  destruct (delivering_step_files dl j sent renv m st' m' filepath thumb_path Hst Hstep)
    as [-> Hf].
  rewrite Hf. clear Hf Hstep. split; [done|]. split; [|split; [|split]].
  - intros ->. simpl. intros [[_ Hnot]%elem_of_difference _]%elem_of_difference.
    by apply Hnot, elem_of_singleton.
  - intros p -> -> ->. simpl. intros [_ Hnot]%elem_of_difference.
    by apply Hnot, elem_of_singleton.
  - by intros q [[Hq _]%elem_of_difference _]%elem_of_difference.
  - intros q Hq Hgone.
    destruct (audio_removed renv) as [[]|e1] eqn:Ha; simpl in Hgone.
    + destruct (decide (q = filepath)) as [->|Hne]; [by left|]. right.
      destruct thumb_path as [p|].
      * destruct (truthy p && negb (raised (thumb_removed renv))) eqn:Hb.
        -- apply andb_true_iff in Hb as [_ Hr].
           destruct (thumb_removed renv) as [[]|e2]; [|done].
           destruct (decide (q = p)) as [->|Hne']; [done|]. exfalso. apply Hgone.
           apply elem_of_difference. split; [|by intros ?%elem_of_singleton].
           apply elem_of_difference. split; [done|]. by intros ?%elem_of_singleton.
        -- exfalso. apply Hgone.
           apply elem_of_difference. split; [|by intros ?%elem_of_empty].
           apply elem_of_difference. split; [done|]. by intros ?%elem_of_singleton.
      * exfalso. apply Hgone.
        apply elem_of_difference. split; [|by intros ?%elem_of_empty].
        apply elem_of_difference. split; [done|]. by intros ?%elem_of_singleton.
    + right. destruct thumb_path as [p|].
      * destruct (truthy p && negb (raised (thumb_removed renv))) eqn:Hb.
        -- apply andb_true_iff in Hb as [_ Hr].
           destruct (thumb_removed renv) as [[]|e2]; [|done].
           destruct (decide (q = p)) as [->|Hne']; [done|]. exfalso. apply Hgone.
           apply elem_of_difference. split; [|by intros ?%elem_of_singleton].
           apply elem_of_difference. split; [done|]. by intros ?%elem_of_empty.
        -- exfalso. apply Hgone.
           apply elem_of_difference. split; [|by intros ?%elem_of_empty].
           apply elem_of_difference. split; [done|]. by intros ?%elem_of_empty.
      * exfalso. apply Hgone.
        apply elem_of_difference. split; [|by intros ?%elem_of_empty].
        apply elem_of_difference. split; [done|]. by intros ?%elem_of_empty.
Qed.

Lemma finished_delivery_cleans_up_witness :
  let audio := lit "downloads/abc.mp3" in
  let cover := lit "/tmp/tmpab12.jpg" in
  let j := mkJob (lit "abc") [] [] [] (Delivering audio (Some cover)) in
  let m := set_files (λ _, {[ audio; cover; lit "downloads/other.mp3" ]})
             (set_download_semaphore (λ _, 2%nat) sample.boot) in
  let renv := mkRemovalEnv (Raise (OtherError 13)) (Return tt) in
  ∃ st' m',
    process_download_step sample.DOWNLOAD_PATH j (Uploaded (Raise (OtherError 6)) renv) m
    = Some (st', m')
    ∧ st' = Finished (Raise (OtherError 6))
    ∧ (audio_removed renv = Return tt → audio ∉ files m')
    ∧ (∀ p, Some cover = Some p → truthy p = true →
         thumb_removed renv = Return tt → p ∉ files m')
    ∧ (∀ q, q ∈ files m' → q ∈ files m)
    ∧ (∀ q, q ∈ files m → q ∉ files m' →
         (q = audio ∧ audio_removed renv = Return tt)
         ∨ (Some cover = Some q ∧ thumb_removed renv = Return tt)).
Proof.
  intros audio cover j m renv. eexists _, _. split; [vm_compute; reflexivity|].
  refine (finished_delivery_cleans_up sample.DOWNLOAD_PATH j (Raise (OtherError 6)) renv m
            _ _ audio (Some cover) _ _).
  - reflexivity.
  - vm_compute. reflexivity.
Defined.

(** The same step, looked at: the upload raised and so does the task; the
    cover is gone, the audio file that could not be removed is still
    there with a line printed about it, and the file of another download
    is untouched. *)
Example locked_audio_file_stays :
  let audio := lit "downloads/abc.mp3" in
  let cover := lit "/tmp/tmpab12.jpg" in
  let other := lit "downloads/other.mp3" in
  let j := mkJob (lit "abc") [] [] [] (Delivering audio (Some cover)) in
  let m := set_files (λ _, {[ audio; cover; other ]})
             (set_download_semaphore (λ _, 2%nat) sample.boot) in
  let renv := mkRemovalEnv (Raise (OtherError 13)) (Return tt) in
  match process_download_step sample.DOWNLOAD_PATH j
          (Uploaded (Raise (OtherError 6)) renv) m with
  | Some (st', m') =>
      st' = Finished (Raise (OtherError 6))
      ∧ audio ∈ files m' ∧ other ∈ files m' ∧ (cover ∉ files m')
      ∧ console m' = [LogCleanupError (OtherError 13)]
      ∧ download_semaphore m' = 3%nat
  | None => False
  end.
Proof. vm_compute. repeat split; try reflexivity. discriminate. Qed.

(** X23.  As long as the header has at most 4000 characters, lyrics longer
    than what is left of 4000 are cut to that length and get three dots,
    shorter ones go out whole, and the message has at most 4003
    characters. *)
Theorem lyrics_fit_under_short_header artist title lyrics :
  let header := txt.memo ++ lit " <b>" ++ artist ++ lit " - " ++ title
                ++ lit "</b>" ++ txt.newline ++ txt.newline in
  len header ≤ 4000 →
  lyrics_text artist title lyrics =
    header ++ (if 4000 - len header <? len lyrics
               then take (Z.to_nat (4000 - len header)) lyrics ++ lit "..."
               else lyrics)
  ∧ len (lyrics_text artist title lyrics) ≤ 4003.
Proof. apply lyrics_text_short_header. Qed.

Lemma lyrics_fit_under_short_header_witness :
  let header := txt.memo ++ lit " <b>" ++ lit "Artist" ++ lit " - " ++ lit "Title"
                ++ lit "</b>" ++ txt.newline ++ txt.newline in
  let lyrics := replicate 5000 108%N in
  lyrics_text (lit "Artist") (lit "Title") lyrics =
    header ++ (if 4000 - len header <? len lyrics
               then take (Z.to_nat (4000 - len header)) lyrics ++ lit "..."
               else lyrics)
  ∧ len (lyrics_text (lit "Artist") (lit "Title") lyrics) ≤ 4003.
Proof.
  intros header lyrics.
  apply (lyrics_fit_under_short_header (lit "Artist") (lit "Title") lyrics).
  vm_compute. discriminate.
Defined.

Lemma search_failure_escapes_witness :
  let env := mkSearchEnv (Return tt) (Return tt) (Raise (OtherError 8)) (Return tt) in
  ∃ sent, search_handler env 42 (lit "query") sample_more.searched
          = (Raise (OtherError 8), set_outbox (λ b, b ++ sent) sample_more.searched)
    ∧ last sent = Some (MessageAnswer txt.searching).
Proof.
  intros env.
  apply (search_failure_escapes env 42 (lit "query") sample_more.searched (OtherError 8));
    reflexivity.
Defined.

Lemma arrow_button_turns_the_page_witness :
  let b := mkButton txt.forward (lit "page:1") in
  pagination_handler sample_more.py_int sample_more.page_ok 42 (callback_data b)
    sample_more.searched
  = (match (build_results_keyboard (sample.songs 7) 1 42 sample_more.searched).1 with
     | Return keyboard' => Return (Some keyboard')
     | Raise e => Raise e
     end,
     (build_results_keyboard (sample.songs 7) 1 42 sample_more.searched).2).
Proof.
  intros b.
  apply (arrow_button_turns_the_page sample_more.py_int sample_more.page_ok 42
           (lit "query") (sample.songs 7) 0 sample_more.searched
           ((song_row <$> take 5 (sample.songs 7))
            ++ [[mkButton (lit "1/2") (lit "noop"); b]])
           [mkButton (lit "1/2") (lit "noop"); b] b).
  - vm_compute. reflexivity.
  - apply elem_of_app. right. apply list_elem_of_here.
  - apply elem_of_cons. right. apply list_elem_of_here.
  - right. reflexivity.
  - vm_compute. reflexivity.
  - vm_compute. reflexivity.
  - reflexivity.
  - reflexivity.
Defined.

Lemma stale_page_press_is_answered_witness :
  pagination_handler sample_more.py_int sample_more.page_ok 42 (lit "page:3") sample.boot
  = (Return None, set_outbox (λ b, b ++ [CallbackAnswer search_expired]) sample.boot).
Proof.
  apply (stale_page_press_is_answered sample_more.py_int sample_more.page_ok 42
           (lit "page:3") (lit "3") 3 sample.boot).
  - vm_compute. reflexivity.
  - vm_compute. reflexivity.
  - vm_compute. reflexivity.
Defined.
